(** * collab-canvas: the room synchronisation server

    A shallow embedding of the socket.io server of the repository (the
    server module concatenated into [src/client/utils.js], from the
    [rooms] table down to the hourly cleanup) and the properties of its
    room store, membership protocol and canvas mutation protocol.

    The server keeps one global table [rooms : Map<string, Room>] and, per
    connected socket, the two closure variables [currentRoom] and
    [currentUser].  Every handler runs to completion, so a handler is a
    function from the state before to the state after together with the
    list of events it emits. *)

From Stdlib Require Import Ascii String.
From stdpp Require Import gmap strings list fin_maps.

Open Scope string_scope.
Open Scope Z_scope.

(** ** JavaScript helpers *)

Module Js.

(** [String.prototype.charAt]: the one-character string at [i], or the
    empty string when [i] is out of range. *)
Definition charAt (i : nat) (s : string) : string :=
  match String.get i s with
  | Some c => String c EmptyString
  | None => EmptyString
  end.

(** [String.prototype.substring(start, end)] for [start <= end]: the
    characters from index [start] up to, not including, [end]; both
    indices are clamped to the length of the string. *)
Definition substring (start stop : nat) (s : string) : string :=
  String.substring start (stop - start) s.

Definition upper_ascii (c : ascii) : ascii :=
  let n := nat_of_ascii c in
  if (andb (Nat.leb 97 n) (Nat.leb n 122)) then ascii_of_nat (n - 32) else c.

(** [String.prototype.toUpperCase], on ASCII. *)
Fixpoint toUpperCase (s : string) : string :=
  match s with
  | EmptyString => EmptyString
  | String c s' => String (upper_ascii c) (toUpperCase s')
  end.

(** Truthiness of a [string | null]: [null] and the empty string are
    falsy. *)
Definition truthy (o : option string) : option string :=
  match o with
  | Some s => if decide (s = "") then None else Some s
  | None => None
  end.

(** A [Map<string, V>] in which the iteration order is observable:
    entries are kept in insertion order, [set] on a present key updates
    the value in place. *)
Section OrderedMap.
Context {V : Type}.

Fixpoint get (k : string) (m : list (string * V)) : option V :=
  match m with
  | [] => None
  | (k', v) :: m' => if decide (k' = k) then Some v else get k m'
  end.

Fixpoint set (k : string) (v : V) (m : list (string * V)) : list (string * V) :=
  match m with
  | [] => [(k, v)]
  | (k', v') :: m' =>
      if decide (k' = k) then (k, v) :: m' else (k', v') :: set k v m'
  end.

Fixpoint delete (k : string) (m : list (string * V)) : list (string * V) :=
  match m with
  | [] => []
  | (k', v') :: m' =>
      if decide (k' = k) then delete k m' else (k', v') :: delete k m'
  end.

Definition size (m : list (string * V)) : nat := length m.

Definition values (m : list (string * V)) : list V := map snd m.

Definition keys (m : list (string * V)) : list string := map fst m.
End OrderedMap.

End Js.

(** ** Types *)

(** [Partial<User>]: what a client sends as its profile. *)
Record UserData := mkUserData {
  ud_id : option string;
  ud_name : option string;
  ud_color : option string;
  ud_joinedAt : option Z;
  ud_userId : option string;
}.

Record User := mkUser {
  user_id : string;
  user_name : option string;
  user_color : option string;
  user_joinedAt : option Z;
  user_userId : option string;
}.

(** [{ id: string, [key: string]: any }]: the server reads [id] only, the
    rest of the object is forwarded as it came. *)
Record CanvasObject := mkCanvasObject {
  obj_id : string;
  obj_rest : string;
}.

Record CanvasState := mkCanvasState {
  objects : list CanvasObject;
  theme : string;
  canvasColor : string;
}.

Record Room := mkRoom {
  users : list (string * User);
  canvasState : CanvasState;
  password : string;
  createdAt : Z;
  expiresAt : Z;
  rejoinCounts : gmap string nat;
  creatorId : string;
}.

(** The closure variables of one socket, and the socket.io rooms the
    socket has joined ([socket.join] / [socket.leave]).  The room that
    socket.io names after the socket itself is left out: no handler here
    addresses it. *)
Record Conn := mkConn {
  currentRoom : option string;
  currentUser : option User;
  joined : gset string;
}.

Record State := mkState {
  rooms : gmap string Room;
  conns : gmap string Conn;
}.

(** What the server sends. *)
Inductive Payload :=
| RoomCreated (roomId pw : string) (user : User)
| RoomValidationFailed (message : string)
| RoomValidationSuccess
| Error (message : string)
| RoomJoined (roomId : string) (user : User) (cs : CanvasState)
    (members : list User) (rejoinCount : option nat)
| UserJoined (user : User)
| UserLeft (userId : string)
| CanvasObjectAdded (object : CanvasObject)
| CanvasObjectModified (object : CanvasObject)
| CanvasObjectRemoved (objectId : string)
| CanvasCleared
| CursorPosition (userId : string) (x y : Z)
| ThemeChanged (th : string) (color : option string).

(** [socket.emit(...)] reaches the sender only; [socket.to(room).emit(...)]
    reaches every socket that joined [room], the sender excepted. *)
Inductive Emission :=
| ToSender (socketId : string) (p : Payload)
| ToOthers (room socketId : string) (p : Payload).

(** What a socket receives.  The random draws and clock readings a
    handler makes are carried by the event: [rnd36] is the value of
    [Math.random().toString(36)], [pick i] the value of
    [Math.floor(Math.random() * chars.length)] in iteration [i] of the
    password loop, [now1] and [now2] the two readings of [Date.now()]. *)
Inductive Event :=
| CreateRoom (userData : UserData) (rnd36 : string) (pick : nat → nat)
    (now1 now2 : Z)
| ValidateRoom (roomId pw : string) (now : Z)
| JoinRoom (roomId pw : string) (userData : UserData) (now : Z)
| ObjectAdded (object : CanvasObject)
| ObjectModified (object : CanvasObject)
| ObjectRemoved (objectId : string)
| CanvasClear
| CursorMove (x y : Z)
| ThemeChange (th : string) (color : option string)
| LeaveRoom
| Disconnect.

(** ** Identifier and password generation *)

(** [Math.random().toString(36).substring(2, 8).toUpperCase()], as a
    function of the string [Math.random().toString(36)]. *)
Definition generateRoomId (rnd36 : string) : string :=
  Js.toUpperCase (Js.substring 2 8 rnd36).

Definition chars : string := "ABCDEFGHIJKLMNOPQRSTUVWXYZ0123456789".

(** The loop [for (let i = 0; i < 6; i++) password += chars.charAt(...)],
    with [n] iterations left. *)
Fixpoint password_loop (n i : nat) (pick : nat → nat) (pw : string) : string :=
  match n with
  | O => pw
  | S n' => password_loop n' (S i) pick (pw +:+ Js.charAt (pick i) chars)
  end.

Definition generateRoomPassword (pick : nat → nat) : string :=
  password_loop 6 0 pick "".

(** The characters of [A-Z0-9]. *)
Definition upper_or_digit (c : ascii) : bool :=
  let n := nat_of_ascii c in
  (Nat.leb 65 n && Nat.leb n 90) || (Nat.leb 48 n && Nat.leb n 57).

Fixpoint string_forallb (p : ascii → bool) (s : string) : bool :=
  match s with
  | EmptyString => true
  | String c s' => p c && string_forallb p s'
  end.

(** ** Handlers *)

(** [{ id: socket.id, ...userData } as User]: a field of [userData] that
    is present wins over [id: socket.id]. *)
Definition make_user (socketId : string) (userData : UserData) : User :=
  {| user_id := default socketId (ud_id userData);
     user_name := ud_name userData;
     user_color := ud_color userData;
     user_joinedAt := ud_joinedAt userData;
     user_userId := ud_userId userData |}.

(** The closure of a socket that has not run a handler yet:
    [let currentRoom = null; let currentUser = null]. *)
Definition fresh_conn : Conn :=
  {| currentRoom := None; currentUser := None; joined := ∅ |}.

Definition conn_of (st : State) (socketId : string) : Conn :=
  default fresh_conn (conns st !! socketId).

Definition set_conn (socketId : string) (c : Conn) (st : State) : State :=
  {| rooms := rooms st; conns := <[socketId := c]> (conns st) |}.

Definition set_rooms (rs : gmap string Room) (st : State) : State :=
  {| rooms := rs; conns := conns st |}.

Definition set_users (us : list (string * User)) (r : Room) : Room :=
  {| users := us; canvasState := canvasState r; password := password r;
     createdAt := createdAt r; expiresAt := expiresAt r;
     rejoinCounts := rejoinCounts r; creatorId := creatorId r |}.

Definition set_rejoinCounts (rc : gmap string nat) (r : Room) : Room :=
  {| users := users r; canvasState := canvasState r; password := password r;
     createdAt := createdAt r; expiresAt := expiresAt r;
     rejoinCounts := rc; creatorId := creatorId r |}.

Definition set_canvasState (cs : CanvasState) (r : Room) : Room :=
  {| users := users r; canvasState := cs; password := password r;
     createdAt := createdAt r; expiresAt := expiresAt r;
     rejoinCounts := rejoinCounts r; creatorId := creatorId r |}.

Definition set_objects (os : list CanvasObject) (cs : CanvasState) : CanvasState :=
  {| objects := os; theme := theme cs; canvasColor := canvasColor cs |}.

Definition day_ms : Z := 24 * 60 * 60 * 1000.

Definition initial_canvas : CanvasState :=
  {| objects := []; theme := "dark"; canvasColor := "#1a1a1a" |}.

(** [socket.on('create-room', ...)]: a new room under a generated id, with
    the socket as its creator and only user; the socket is bound to it. *)
Definition on_create_room (socketId : string) (userData : UserData)
    (rnd36 : string) (pick : nat → nat) (now1 now2 : Z) (st : State)
    : State * list Emission :=
  let roomId := generateRoomId rnd36 in
  let pw := generateRoomPassword pick in
  let c := conn_of st socketId in
  let user := make_user socketId userData in
  let room :=
    {| users := [(socketId, user)];
       canvasState := initial_canvas;
       password := pw;
       createdAt := now1;
       expiresAt := now2 + day_ms;
       rejoinCounts := ∅;
       creatorId := socketId |} in
  (set_rooms (<[roomId := room]> (rooms st))
     (set_conn socketId
        {| currentRoom := Some roomId; currentUser := Some user;
           joined := {[roomId]} ∪ joined c |} st),
   [ToSender socketId (RoomCreated roomId pw user)]).

(** [socket.on('validate-room', ...)]: not found, then expired (the room
    is deleted), then wrong password. *)
Definition on_validate_room (socketId roomId pw : string) (now : Z)
    (st : State) : State * list Emission :=
  match rooms st !! roomId with
  | None => (st, [ToSender socketId (RoomValidationFailed "Room not found")])
  | Some room =>
      if decide (now > expiresAt room) then
        (set_rooms (delete roomId (rooms st)) st,
         [ToSender socketId
            (RoomValidationFailed "Room has expired (24 hour limit)")])
      else if decide (password room ≠ pw) then
        (st, [ToSender socketId (RoomValidationFailed "Incorrect password")])
      else
        (st, [ToSender socketId RoomValidationSuccess])
  end.

(** [userData.userId || socket.id] *)
Definition userIdToTrack (socketId : string) (userData : UserData) : string :=
  default socketId (Js.truthy (ud_userId userData)).

(** [socket.on('join-room', ...)]: the checks of validate-room, then the
    rejoin limit; on success the socket is bound, the user is entered in
    the room and the count of the key is set to 0 for a key not seen
    before and raised by one for a key seen before. *)
Definition on_join_room (socketId roomId pw : string) (userData : UserData)
    (now : Z) (st : State) : State * list Emission :=
  match rooms st !! roomId with
  | None => (st, [ToSender socketId (Error "Room not found or expired")])
  | Some room =>
      if decide (now > expiresAt room) then
        (set_rooms (delete roomId (rooms st)) st,
         [ToSender socketId (Error "Room has expired (24 hour limit)")])
      else if decide (password room ≠ pw) then
        (st, [ToSender socketId (Error "Incorrect password")])
      else
        let key := userIdToTrack socketId userData in
        let rejoinCount := default O (rejoinCounts room !! key) in
        if decide (3 ≤ rejoinCount)%nat then
          (st, [ToSender socketId
                  (Error "Maximum rejoin limit reached (3 attempts)")])
        else
          let c := conn_of st socketId in
          let user := make_user socketId userData in
          let users' := Js.set socketId user (users room) in
          let counts' :=
            if decide ((0 < rejoinCount)%nat ∨ is_Some (rejoinCounts room !! key))
            then <[key := (rejoinCount + 1)%nat]> (rejoinCounts room)
            else <[key := O]> (rejoinCounts room) in
          let room' := set_rejoinCounts counts' (set_users users' room) in
          (set_rooms (<[roomId := room']> (rooms st))
             (set_conn socketId
                {| currentRoom := Some roomId; currentUser := Some user;
                   joined := {[roomId]} ∪ joined c |} st),
           [ToSender socketId
              (RoomJoined roomId user (canvasState room')
                 (Js.values (users room')) (counts' !! key));
            ToOthers roomId socketId (UserJoined user)])
  end.

(** The common shape of the canvas handlers:
    [if (!currentRoom) return; const room = rooms.get(currentRoom);
     if (room) { ... } socket.to(currentRoom).emit(...)]. *)
Definition on_canvas (socketId : string) (update : CanvasState → CanvasState)
    (p : Payload) (st : State) : State * list Emission :=
  match Js.truthy (currentRoom (conn_of st socketId)) with
  | None => (st, [])
  | Some cur =>
      (match rooms st !! cur with
       | Some room =>
           set_rooms
             (<[cur := set_canvasState (update (canvasState room)) room]>
                (rooms st)) st
       | None => st
       end,
       [ToOthers cur socketId p])
  end.

(** [objects.findIndex(obj => obj.id === id)] followed by
    [objects[index] = object] when an index was found. *)
Fixpoint replace_first (o : CanvasObject) (os : list CanvasObject)
    : list CanvasObject :=
  match os with
  | [] => []
  | o' :: os' =>
      if decide (obj_id o' = obj_id o) then o :: os' else o' :: replace_first o os'
  end.

Definition on_object_added (socketId : string) (o : CanvasObject) :=
  on_canvas socketId (λ cs, set_objects (objects cs ++ [o]) cs)
    (CanvasObjectAdded o).

Definition on_object_modified (socketId : string) (o : CanvasObject) :=
  on_canvas socketId (λ cs, set_objects (replace_first o (objects cs)) cs)
    (CanvasObjectModified o).

Definition on_object_removed (socketId objectId : string) :=
  on_canvas socketId
    (λ cs, set_objects (filter (λ o, obj_id o ≠ objectId) (objects cs)) cs)
    (CanvasObjectRemoved objectId).

Definition on_canvas_clear (socketId : string) :=
  on_canvas socketId (λ cs, set_objects [] cs) CanvasCleared.

Definition on_theme_change (socketId th : string) (color : option string) :=
  on_canvas socketId
    (λ cs, {| objects := objects cs; theme := th;
              canvasColor := default (canvasColor cs) (Js.truthy color) |})
    (ThemeChanged th color).

(** [socket.on('cursor:position', ...)]: nothing is stored, the position
    is sent on with the id of the sender. *)
Definition on_cursor_position (socketId : string) (x y : Z) (st : State)
    : State * list Emission :=
  match Js.truthy (currentRoom (conn_of st socketId)) with
  | None => (st, [])
  | Some cur => (st, [ToOthers cur socketId (CursorPosition socketId x y)])
  end.

(** [leave-room]: the user is taken out of the room, the others are told,
    and a room left without users is deleted from the table; the socket
    then leaves the socket.io room and the closure variables are reset. *)
Definition on_leave_room (socketId : string) (st : State)
    : State * list Emission :=
  let c := conn_of st socketId in
  match Js.truthy (currentRoom c) with
  | None => (st, [])
  | Some cur =>
      let unbound :=
        {| currentRoom := None; currentUser := None;
           joined := joined c ∖ {[cur]} |} in
      match rooms st !! cur with
      | Some room =>
          let room' := set_users (Js.delete socketId (users room)) room in
          (set_conn socketId unbound
             (set_rooms
                (if decide (Js.size (users room') = O)
                 then delete cur (rooms st)
                 else <[cur := room']> (rooms st)) st),
           [ToOthers cur socketId (UserLeft socketId)])
      | None => (set_conn socketId unbound st, [])
      end
  end.

(** [disconnect]: the user is taken out of the room and the others are
    told; the room stays in the table whether or not a user is left, and
    the closure variables are left as they are.  socket.io itself has
    taken the socket out of every room it had joined before the handler
    runs. *)
Definition on_disconnect (socketId : string) (st : State)
    : State * list Emission :=
  let c := conn_of st socketId in
  let gone :=
    {| currentRoom := currentRoom c; currentUser := currentUser c;
       joined := ∅ |} in
  match Js.truthy (currentRoom c) with
  | None => (set_conn socketId gone st, [])
  | Some cur =>
      match rooms st !! cur with
      | Some room =>
          let room' := set_users (Js.delete socketId (users room)) room in
          (set_conn socketId gone
             (set_rooms (<[cur := room']> (rooms st)) st),
           [ToOthers cur socketId (UserLeft socketId)])
      | None => (set_conn socketId gone st, [])
      end
  end.

Definition handle (socketId : string) (ev : Event) (st : State)
    : State * list Emission :=
  match ev with
  | CreateRoom userData rnd36 pick now1 now2 =>
      on_create_room socketId userData rnd36 pick now1 now2 st
  | ValidateRoom roomId pw now => on_validate_room socketId roomId pw now st
  | JoinRoom roomId pw userData now =>
      on_join_room socketId roomId pw userData now st
  | ObjectAdded o => on_object_added socketId o st
  | ObjectModified o => on_object_modified socketId o st
  | ObjectRemoved objectId => on_object_removed socketId objectId st
  | CanvasClear => on_canvas_clear socketId st
  | CursorMove x y => on_cursor_position socketId x y st
  | ThemeChange th color => on_theme_change socketId th color st
  | LeaveRoom => on_leave_room socketId st
  | Disconnect => on_disconnect socketId st
  end.

(** The hourly cleanup: every room with [now > room.expiresAt] is
    deleted. *)
Definition cleanup (now : Z) (st : State) : State :=
  set_rooms (filter (λ kv : string * Room, ¬ now > expiresAt kv.2) (rooms st)) st.

(** The server before any connection. *)
Definition initial : State := {| rooms := ∅; conns := ∅ |}.

(** ** Derived notions *)

(** The test every handler makes, [if (currentRoom)]: the room a socket is
    bound to, if any. *)
Definition bound_to (st : State) (socketId : string) : option string :=
  Js.truthy (currentRoom (conn_of st socketId)).

(** The sockets an emission is delivered to. *)
Definition recipients (st : State) (e : Emission) : gset string :=
  match e with
  | ToSender s _ => {[s]}
  | ToOthers r s _ =>
      dom (filter (λ kv : string * Conn, r ∈ joined kv.2) (conns st)) ∖ {[s]}
  end.

Definition is_member (socketId : string) (r : Room) : Prop :=
  is_Some (Js.get socketId (users r)).

(** The messages of the canvas mutation protocol. *)
Definition canvas_mutation (ev : Event) : bool :=
  match ev with
  | ObjectAdded _ | ObjectModified _ | ObjectRemoved _
  | CanvasClear | ThemeChange _ _ | CursorMove _ _ => true
  | _ => false
  end.

(** The messages that bind a socket to a room. *)
Definition binds (ev : Event) : bool :=
  match ev with
  | CreateRoom _ _ _ _ _ | JoinRoom _ _ _ _ => true
  | _ => false
  end.

(** One thing that happens to the server: a message on a socket, or the
    cleanup timer firing. *)
Inductive Action :=
| Msg (socketId : string) (ev : Event)
| Tick (now : Z).

Definition run_action (a : Action) (st : State) : State :=
  match a with
  | Msg s ev => (handle s ev st).1
  | Tick now => cleanup now st
  end.

Definition run (l : list Action) (st : State) : State :=
  foldl (λ st a, run_action a st) st l.

(** An action is orderly when a socket asks to create or join a room only
    while its [currentRoom] is [null]. *)
Definition orderly (st : State) (a : Action) : Prop :=
  match a with
  | Msg s ev => binds ev = true → currentRoom (conn_of st s) = None
  | Tick _ => True
  end.

(** Every user of a room is a socket whose [currentRoom] is that room. *)
Definition members_bound (st : State) : Prop :=
  ∀ c r room,
    rooms st !! r = Some room → is_member c room →
    currentRoom (conn_of st c) = Some r.

Inductive reachable : State → Prop :=
| reachable_initial : reachable initial
| reachable_step st a :
    reachable st → orderly st a → reachable (run_action a st).

(** ** Sample sessions *)

Module Sample.

Definition ann : UserData :=
  mkUserData None (Some "ann") (Some "#ff0000") None (Some "u-ann").

Definition bob : UserData :=
  mkUserData None (Some "bob") None None (Some "u-bob").

Definition picks (i : nat) : nat := (5 * i + 1)%nat.

Definition pw : string := "BGLQV0".

Definition circle : CanvasObject := mkCanvasObject "a1" "circle".
Definition square : CanvasObject := mkCanvasObject "b2" "rect".

(** Socket [s1] creates room [K3X9Q2]. *)
Definition created : State :=
  run [Msg "s1" (CreateRoom ann "0.k3x9q2mzr1p" picks 1000 1000)] initial.

(** ... and socket [s2] joins it. *)
Definition shared : State :=
  run [Msg "s2" (JoinRoom "K3X9Q2" pw bob 2000)] created.

(** ... and [s1] draws a circle. *)
Definition drawn : State :=
  run [Msg "s1" (ObjectAdded circle)] shared.

(** [u-bob] joins, leaves and rejoins until it has rejoined three
    times. *)
Definition rejoined : State :=
  run [Msg "s2" LeaveRoom; Msg "s3" (JoinRoom "K3X9Q2" pw bob 3000);
       Msg "s3" LeaveRoom; Msg "s4" (JoinRoom "K3X9Q2" pw bob 4000);
       Msg "s4" LeaveRoom; Msg "s5" (JoinRoom "K3X9Q2" pw bob 5000);
       Msg "s5" LeaveRoom] shared.

(** Socket [s2] creates a room of its own, and [s1], still in its room
    [K3X9Q2], joins that one too. *)
Definition crossed : State :=
  run [Msg "s2" (CreateRoom bob "0.7hd2m5c1xqw" picks 1500 1500);
       Msg "s1" (JoinRoom "7HD2M5" pw ann 2000)] created.

End Sample.

(** ** More derived notions *)

(** No key of a room has been counted beyond the three rejoins the
    join-room handler allows. *)
Definition rejoin_bounded (st : State) : Prop :=
  ∀ r room key n,
    rooms st !! r = Some room → rejoinCounts room !! key = Some n →
    (n ≤ 3)%nat.

(** What a canvas message makes the server send to the other sockets of
    the room. *)
Definition canvas_payload (socketId : string) (ev : Event) : option Payload :=
  match ev with
  | ObjectAdded o => Some (CanvasObjectAdded o)
  | ObjectModified o => Some (CanvasObjectModified o)
  | ObjectRemoved objectId => Some (CanvasObjectRemoved objectId)
  | CanvasClear => Some CanvasCleared
  | CursorMove x y => Some (CursorPosition socketId x y)
  | ThemeChange th color => Some (ThemeChanged th color)
  | _ => None
  end.

(** The event is a create-room that files its room under [r]. *)
Definition creates (r : string) (ev : Event) : Prop :=
  match ev with
  | CreateRoom _ rnd36 _ _ _ => generateRoomId rnd36 = r
  | _ => False
  end.

Definition lower_ascii (c : ascii) : bool :=
  let n := nat_of_ascii c in Nat.leb 97 n && Nat.leb n 122.

(** ** More sample sessions *)

Module Sample2.

(** The room [K3X9Q2] once its 24 hours are over and the cleanup has
    run: sockets [s1] and [s2] are still bound to it. *)
Definition swept : State := run [Tick 90000000] Sample.drawn.

(** A second object with the id of the circle is added. *)
Definition doubled : State :=
  run [Msg "s2" (ObjectAdded (mkCanvasObject "a1" "ellipse"))] Sample.drawn.

End Sample2.

(** ** Client utilities ([utils.js]) *)

Module Utils.

Definition hex_chars : string := "0123456789abcdef".

(** [Number.prototype.toString(16)] on a non-negative integer: the
    digits are produced from the least significant one, [fuel] bounding
    their number. *)
Fixpoint toString16_aux (fuel n : nat) (acc : string) : string :=
  match fuel with
  | O => acc
  | S fuel' =>
      let acc' := Js.charAt (n mod 16) hex_chars +:+ acc in
      if Nat.eqb (n / 16) 0 then acc' else toString16_aux fuel' (n / 16) acc'
  end.

Definition toString16 (n : nat) : string := toString16_aux (S n) n "".

(** The callback of [generateId]: [c === 'x' ? r : (r & 0x3 | 0x8)],
    printed in base 16; [r] is the value of [Math.random() * 16 | 0]. *)
Definition id_digit (c : ascii) (r : nat) : string :=
  toString16 (if Ascii.eqb c "x" then r else Nat.lor (Nat.land r 3) 8).

(** [template.replace(/[xy]/g, callback)]: every [x] and [y] is replaced
    by what the callback returns for it, the other characters are kept;
    [draw k] is the draw of the [k]-th call of the callback. *)
Fixpoint replace_xy (draw : nat → nat) (k : nat) (template : string) : string :=
  match template with
  | EmptyString => EmptyString
  | String c rest =>
      if Ascii.eqb c "x" || Ascii.eqb c "y"
      then id_digit c (draw k) +:+ replace_xy draw (S k) rest
      else String c (replace_xy draw k rest)
  end.

Definition id_template : string := "xxxxxxxx-xxxx-4xxx-yxxx-xxxxxxxxxxxx".

Definition generateId (draw : nat → nat) : string :=
  replace_xy draw 0 id_template.

Definition hex_ascii (c : ascii) : bool :=
  let n := nat_of_ascii c in
  (Nat.leb 48 n && Nat.leb n 57) || (Nat.leb 97 n && Nat.leb n 102).

(** One of [8], [9], [a], [b]. *)
Definition variant_ascii (c : ascii) : bool :=
  let n := nat_of_ascii c in
  Nat.eqb n 56 || Nat.eqb n 57 || Nat.eqb n 97 || Nat.eqb n 98.

(** [result] follows [template]: a hexadecimal digit for every [x], one
    of [8 9 a b] for every [y], the character itself otherwise. *)
Fixpoint follows (template result : string) : bool :=
  match template, result with
  | EmptyString, EmptyString => true
  | String t template', String c result' =>
      (if Ascii.eqb t "x" then hex_ascii c
       else if Ascii.eqb t "y" then variant_ascii c
       else Ascii.eqb c t)
      && follows template' result'
  | _, _ => false
  end.

(** The number of [x] and [y] in a template: the draws it takes. *)
Fixpoint draws_of (template : string) : nat :=
  match template with
  | EmptyString => O
  | String c rest =>
      ((if Ascii.eqb c "x" || Ascii.eqb c "y" then 1 else 0) + draws_of rest)%nat
  end.

Definition colors : list string :=
  ["#ff6b6b"; "#4ecdc4"; "#45b7d1"; "#f9ca24"; "#a29bfe";
   "#fd79a8"; "#fdcb6e"; "#6c5ce7"; "#00b894"; "#e17055"].

(** [colors[Math.floor(Math.random() * colors.length)]], [i] being the
    index drawn; an index out of range gives [undefined]. *)
Definition getRandomColor (i : nat) : option string := colors !! i.

End Utils.

(** ** The client's socket manager ([socket-manager.js]) *)

Module Client.

(** [this.currentRoom] and [this.currentUser] of the SocketManager. *)
Record ClientState := mkClient {
  cl_currentRoom : option string;
  cl_currentUser : option User;
}.

(** The [userData] that [createRoom(username)] sends:
    [{ name: username || 'User', color: getRandomColor() }]. *)
Definition createRoom_userData (username : option string) (i : nat) : UserData :=
  {| ud_id := None;
     ud_name := Some (default "User" (Js.truthy username));
     ud_color := Utils.getRandomColor i;
     ud_joinedAt := None;
     ud_userId := None |}.

(** The [userData] that [joinRoom(roomId, username, password)] sends:
    [{ name: username || 'User', joinedAt: Date.now() }]. *)
Definition joinRoom_userData (username : option string) (now : Z) : UserData :=
  {| ud_id := None;
     ud_name := Some (default "User" (Js.truthy username));
     ud_color := None;
     ud_joinedAt := Some now;
     ud_userId := None |}.

(** [joinRoom] sets [this.currentRoom = roomId] before it emits. *)
Definition joinRoom (roomId : string) (cl : ClientState) : ClientState :=
  {| cl_currentRoom := Some roomId; cl_currentUser := cl_currentUser cl |}.

(** [leaveRoom]: when [this.currentRoom] is set, leave-room is emitted
    (the boolean) and [this.currentRoom] is reset. *)
Definition leaveRoom (cl : ClientState) : ClientState * bool :=
  match Js.truthy (cl_currentRoom cl) with
  | Some _ =>
      ({| cl_currentRoom := None; cl_currentUser := cl_currentUser cl |}, true)
  | None => (cl, false)
  end.

(** The handlers of the events the server sends: room-created and
    room-joined set the room and the user, the other events are passed
    to the callbacks and leave the manager's fields alone. *)
Definition receive (cl : ClientState) (p : Payload) : ClientState :=
  match p with
  | RoomCreated roomId _ user =>
      {| cl_currentRoom := Some roomId; cl_currentUser := Some user |}
  | RoomJoined roomId user _ _ _ =>
      {| cl_currentRoom := Some roomId; cl_currentUser := Some user |}
  | _ => cl
  end.

(** What the server emitted to the socket itself. *)
Definition to_sender (socketId : string) (out : list Emission) : list Payload :=
  omap (λ e, match e with
             | ToSender s p => if decide (s = socketId) then Some p else None
             | ToOthers _ _ _ => None
             end) out.

(** One [joinRoom] of the client on socket [socketId], the server's
    handling of the join-room it emits, and the client's handling of the
    answer. *)
Definition join_round (socketId roomId : string) (username : option string)
    (pw : string) (client_now server_now : Z) (cl : ClientState) (st : State)
    : ClientState * State :=
  let '(st', out) :=
    handle socketId
      (JoinRoom roomId pw (joinRoom_userData username client_now) server_now)
      st in
  (foldl receive (joinRoom roomId cl) (to_sender socketId out), st').

End Client.

(** ** [throttle] ([utils.js]) *)

Module Throttle.
Section Throttle.
(** The arguments of the throttled function. *)
Context {Args : Type}.
Variable wait : Z.

(** The closure variables of a throttled function: [lastRan], and in
    [timeout] the timer that is set and has not fired, with the arguments
    its callback holds and the delay it was set with. *)
Record State := mkState {
  lastRan : option Z;
  timeout : option (Args * Z);
}.

Definition initial : State := {| lastRan := None; timeout := None |}.

(** A call of the throttled function, [now] being the reading of
    [Date.now()] in the branch taken; or the timer firing, with the two
    readings its callback makes. *)
Inductive Event :=
| Call (args : Args) (now : Z)
| Fire (now1 now2 : Z).

(** One run of [func]: its arguments, the clock reading that was checked
    against [lastRan] before it (for the run of the first call, which
    checks nothing, the reading taken after it) and the reading stored in
    [lastRan] after it. *)
Record Run := mkRun {
  run_args : Args;
  run_started : Z;
  run_finished : Z;
}.

(** [!lastRan]: [null] and 0 are falsy. *)
Definition never_ran (st : State) : bool :=
  match lastRan st with
  | None => true
  | Some t => bool_decide (t = 0)
  end.

Definition step (st : State) (ev : Event) : State * list Run :=
  match ev with
  | Call args now =>
      if never_ran st then
        ({| lastRan := Some now; timeout := timeout st |},
         [mkRun args now now])
      else
        ({| lastRan := lastRan st;
            timeout := Some (args, wait - (now - default 0 (lastRan st))) |},
         [])
  | Fire now1 now2 =>
      match timeout st with
      | None => (st, [])
      | Some (args, _) =>
          if decide (now1 - default 0 (lastRan st) >= wait) then
            ({| lastRan := Some now2; timeout := None |},
             [mkRun args now1 now2])
          else
            ({| lastRan := lastRan st; timeout := None |}, [])
      end
  end.

Fixpoint steps (st : State) (evs : list Event) : State * list Run :=
  match evs with
  | [] => (st, [])
  | ev :: evs' =>
      let '(st1, out1) := step st ev in
      let '(st2, out2) := steps st1 evs' in
      (st2, (out1 ++ out2)%list)
  end.

(** The clock readings that can end up in [lastRan] are not 0. *)
Definition clock_nonzero (ev : Event) : Prop :=
  match ev with
  | Call _ now => now ≠ 0
  | Fire _ now2 => now2 ≠ 0
  end.

(** Every run starts at least [wait] after the run before it has
    finished. *)
Fixpoint spaced (prev : option Z) (runs : list Run) : Prop :=
  match runs with
  | [] => True
  | r :: runs' =>
      match prev with
      | Some t => run_started r - t >= wait
      | None => True
      end ∧ spaced (Some (run_finished r)) runs'
  end.

(** [prev] is the reading the last run left in [lastRan], if there was a
    run. *)
Definition tracks (st : State) (prev : option Z) : Prop :=
  match prev with
  | None => lastRan st = None
  | Some t => lastRan st = Some t ∧ t ≠ 0
  end.

Definition is_call (ev : Event) : Prop :=
  match ev with
  | Call _ _ => True
  | Fire _ _ => False
  end.

End Throttle.
End Throttle.

(** ** The undo history ([history-manager.js]) *)

Module History.

(** An entry of the stacks: [{ type, objectData, timestamp, userId }];
    the object data is the canvas manager's and is stored as it comes. *)
Record Action := mkAction {
  act_type : string;
  act_objectData : string;
  act_timestamp : Z;
  act_userId : string;
}.

(** [undoStack], [redoStack] (the top is the last element, as [push] and
    [pop] have it) and [userId]. *)
Record State := mkState {
  undoStack : list Action;
  redoStack : list Action;
  userId : option string;
}.

Definition maxHistorySize : nat := 100.

(** The manager as its constructor leaves it. *)
Definition initial : State :=
  {| undoStack := []; redoStack := []; userId := None |}.

(** The handlers of room-joined and room-created:
    [this.userId = data.user.id]. *)
Definition on_room (user : User) (h : State) : State :=
  {| undoStack := undoStack h; redoStack := redoStack h;
     userId := Some (user_id user) |}.

(** [recordAction(type, objectData, isRemote)], [now] being the reading
    of [Date.now()]. *)
Definition recordAction (type objectData : string) (isRemote : bool)
    (now : Z) (h : State) : State :=
  if isRemote then h
  else
    match Js.truthy (userId h) with
    | None => h
    | Some uid =>
        let pushed := (undoStack h ++ [mkAction type objectData now uid])%list in
        {| undoStack :=
             if decide (maxHistorySize < length pushed)%nat
             then tail pushed else pushed;
           redoStack := [];
           userId := userId h |}
    end.

Definition canUndo (h : State) : bool := bool_decide (0 < length (undoStack h))%nat.
Definition canRedo (h : State) : bool := bool_decide (0 < length (redoStack h))%nat.

(** [undo()]: the action popped off the undo stack is handed to
    [applyUndo] (the second component) and pushed on the redo stack. *)
Definition undo (h : State) : State * option Action :=
  if canUndo h then
    match last (undoStack h) with
    | Some action =>
        ({| undoStack := removelast (undoStack h);
            redoStack := (redoStack h ++ [action])%list;
            userId := userId h |}, Some action)
    | None => (h, None)
    end
  else (h, None).

(** [redo()]: the action popped off the redo stack is handed to
    [applyRedo] and pushed back on the undo stack. *)
Definition redo (h : State) : State * option Action :=
  if canRedo h then
    match last (redoStack h) with
    | Some action =>
        ({| undoStack := (undoStack h ++ [action])%list;
            redoStack := removelast (redoStack h);
            userId := userId h |}, Some action)
    | None => (h, None)
    end
  else (h, None).

(** [clear()], called when the room is left. *)
Definition clear (h : State) : State :=
  {| undoStack := []; redoStack := []; userId := None |}.

(** What can be done to the manager. *)
Inductive Op :=
| OnRoom (user : User)
| Record (type objectData : string) (isRemote : bool) (now : Z)
| Undo
| Redo
| Clear.

Definition apply (h : State) (op : Op) : State :=
  match op with
  | OnRoom user => on_room user h
  | Record type objectData isRemote now =>
      recordAction type objectData isRemote now h
  | Undo => (undo h).1
  | Redo => (redo h).1
  | Clear => clear h
  end.

End History.

(** * Properties *)

(** ** Basic facts *)

Lemma truthy_Some (o : option string) (s : string) :
  Js.truthy o = Some s → o = Some s ∧ s ≠ "".
Proof.
  destruct o as [t|]; simpl; [|done].
  destruct (decide (t = "")); naive_solver.
Qed.

Lemma state_eta (st : State) : {| rooms := rooms st; conns := conns st |} = st.
Proof. by destruct st. Qed.

Lemma set_rooms_same (st : State) : set_rooms (rooms st) st = st.
Proof. apply state_eta. Qed.

Lemma room_eta (r : Room) :
  set_canvasState (canvasState r) r = r.
Proof. by destruct r. Qed.

Lemma canvas_eta (cs : CanvasState) : set_objects (objects cs) cs = cs.
Proof. by destruct cs. Qed.

Lemma conn_of_set_conn_eq (st : State) (s : string) (c : Conn) :
  conn_of (set_conn s c st) s = c.
Proof. unfold conn_of, set_conn; simpl. by rewrite lookup_insert_eq. Qed.

Lemma conn_of_set_conn_ne (st : State) (s s' : string) (c : Conn) :
  s ≠ s' → conn_of (set_conn s c st) s' = conn_of st s'.
Proof. intros. unfold conn_of, set_conn; simpl. by rewrite lookup_insert_ne. Qed.

Lemma conn_of_set_rooms (st : State) (rs : gmap string Room) (s : string) :
  conn_of (set_rooms rs st) s = conn_of st s.
Proof. done. Qed.

(** *** The ordered map *)

Section OrderedMapFacts.
Context {V : Type}.
Implicit Types (m : list (string * V)) (k : string) (v : V).

Lemma get_set m k k' v :
  Js.get k (Js.set k' v m) = if decide (k' = k) then Some v else Js.get k m.
Proof.
  induction m as [|[k0 v0] m IH]; simpl.
  - by destruct (decide (k' = k)).
  - destruct (decide (k0 = k')) as [->|Hne]; simpl.
    + destruct (decide (k' = k)); done.
    + destruct (decide (k0 = k)) as [->|]; simpl.
      * by rewrite decide_False by congruence.
      * apply IH.
Qed.

Lemma get_delete m k k' :
  Js.get k (Js.delete k' m) = if decide (k' = k) then None else Js.get k m.
Proof.
  induction m as [|[k0 v0] m IH]; simpl.
  - by destruct (decide (k' = k)).
  - destruct (decide (k0 = k')) as [->|Hne]; simpl.
    + rewrite IH. destruct (decide (k' = k)); done.
    + destruct (decide (k0 = k)) as [->|]; simpl.
      * by rewrite decide_False by congruence.
      * apply IH.
Qed.

Lemma get_delete_eq m k : Js.get k (Js.delete k m) = None.
Proof. rewrite get_delete. by rewrite decide_True. Qed.
End OrderedMapFacts.

(** *** The canvas handlers *)

Lemma on_canvas_unbound (st : State) (s : string) f p :
  bound_to st s = None → on_canvas s f p st = (st, []).
Proof. unfold bound_to, on_canvas. by intros ->. Qed.

Lemma on_canvas_room (st : State) (s cur : string) (room : Room) f p :
  bound_to st s = Some cur → rooms st !! cur = Some room →
  on_canvas s f p st =
    (set_rooms (<[cur := set_canvasState (f (canvasState room)) room]> (rooms st)) st,
     [ToOthers cur s p]).
Proof. unfold bound_to, on_canvas. by intros -> ->. Qed.

Lemma on_canvas_no_room (st : State) (s cur : string) f p :
  bound_to st s = Some cur → rooms st !! cur = None →
  on_canvas s f p st = (st, [ToOthers cur s p]).
Proof. unfold bound_to, on_canvas. by intros -> ->. Qed.

(** A canvas handler whose update leaves the canvas of the room as it is
    leaves the whole state as it is, and still broadcasts. *)
Lemma on_canvas_fixed (st : State) (s cur : string) f p :
  bound_to st s = Some cur →
  (∀ room, rooms st !! cur = Some room → f (canvasState room) = canvasState room) →
  on_canvas s f p st = (st, [ToOthers cur s p]).
Proof.
  intros Hb Hf. destruct (rooms st !! cur) as [room|] eqn:Hr.
  - rewrite (on_canvas_room _ _ _ _ _ _ Hb Hr), (Hf _ eq_refl), room_eta.
    by rewrite insert_id, set_rooms_same.
  - by apply on_canvas_no_room.
Qed.

Lemma replace_first_absent (o : CanvasObject) (os : list CanvasObject) :
  (∀ o', o' ∈ os → obj_id o' ≠ obj_id o) → replace_first o os = os.
Proof.
  induction os as [|o' os IH]; intros H; simpl; [done|].
  rewrite decide_False by (apply H; left).
  f_equal. apply IH. intros o'' ?. apply H. by right.
Qed.

Lemma elem_of_recipients_others (st : State) (r s c : string) p :
  c ∈ recipients st (ToOthers r s p) ↔ c ≠ s ∧ r ∈ joined (conn_of st c).
Proof.
  unfold recipients, conn_of.
  rewrite elem_of_difference, elem_of_dom, not_elem_of_singleton.
  split.
  - intros [[k Hk] ?]. apply map_lookup_filter_Some in Hk as [Hk ?].
    rewrite Hk. done.
  - intros [? Hj]. split; [|done].
    destruct (conns st !! c) as [k|] eqn:Hk; simpl in Hj; [|set_solver].
    exists k. by apply map_lookup_filter_Some.
Qed.

(** ** Joining *)

(** C4. A join-room request for an existing, unexpired room with the right
    password, made under a key whose entry in the room's [rejoinCounts]
    has reached 3, is answered with the error "Maximum rejoin limit reached
    (3 attempts)" and nothing else happens: the state after is the state
    before, so the socket is not bound and no user is inserted. *)
Theorem join_room_rejoin_limit (st : State) (socketId roomId pw : string)
    (userData : UserData) (now : Z) (room : Room) (n : nat) :
  rooms st !! roomId = Some room →
  now ≤ expiresAt room →
  password room = pw →
  rejoinCounts room !! userIdToTrack socketId userData = Some n →
  (n ≥ 3)%nat →
  handle socketId (JoinRoom roomId pw userData now) st =
    (st, [ToSender socketId (Error "Maximum rejoin limit reached (3 attempts)")]).
Proof.
  intros Hroom Hfresh Hpw Hcount Hn. simpl. unfold on_join_room.
  rewrite Hroom, !decide_False by (congruence || lia).
  rewrite Hcount. simpl. by rewrite decide_True.
Qed.

Lemma join_room_rejoin_limit_witness :
  handle "s6" (JoinRoom "K3X9Q2" Sample.pw Sample.bob 6000) Sample.rejoined =
    (Sample.rejoined,
     [ToSender "s6" (Error "Maximum rejoin limit reached (3 attempts)")]).
Proof.
  eapply (join_room_rejoin_limit Sample.rejoined "s6" "K3X9Q2" Sample.pw
            Sample.bob 6000 _ 3).
  - vm_compute. reflexivity.
  - vm_compute. discriminate.
  - vm_compute. reflexivity.
  - vm_compute. reflexivity.
  - lia.
Defined.

(** C5. A join-room request for an existing, unexpired room with a
    password other than the room's is answered with the error "Incorrect
    password" and the state after is the state before: the room's users,
    rejoinCounts and canvasState are what they were. *)
Theorem join_room_wrong_password (st : State) (socketId roomId pw : string)
    (userData : UserData) (now : Z) (room : Room) :
  rooms st !! roomId = Some room →
  now ≤ expiresAt room →
  password room ≠ pw →
  handle socketId (JoinRoom roomId pw userData now) st =
    (st, [ToSender socketId (Error "Incorrect password")]).
Proof.
  intros Hroom Hfresh Hpw. simpl. unfold on_join_room.
  by rewrite Hroom, decide_False, decide_True by (done || lia).
Qed.

Lemma join_room_wrong_password_witness :
  handle "s9" (JoinRoom "K3X9Q2" "QWERTY" Sample.bob 2500) Sample.drawn =
    (Sample.drawn, [ToSender "s9" (Error "Incorrect password")]).
Proof.
  eapply (join_room_wrong_password Sample.drawn "s9" "K3X9Q2" "QWERTY"
            Sample.bob 2500).
  - vm_compute. reflexivity.
  - vm_compute. discriminate.
  - vm_compute. discriminate.
Defined.

(** ** The canvas mutation protocol *)

(** C6. When a socket bound to a room adds an object and a socket bound to
    the same room then removes the object's id, the room's object list is
    the list before with every object of that id filtered out: no object
    of that id is left. *)
Theorem added_then_removed (st : State) (s1 s2 cur : string) (room : Room)
    (o : CanvasObject) :
  bound_to st s1 = Some cur →
  bound_to st s2 = Some cur →
  rooms st !! cur = Some room →
  ∃ room',
    rooms (run [Msg s1 (ObjectAdded o); Msg s2 (ObjectRemoved (obj_id o))] st)
      !! cur = Some room' ∧
    objects (canvasState room') =
      filter (λ o', obj_id o' ≠ obj_id o) (objects (canvasState room)) ∧
    ∀ o', o' ∈ objects (canvasState room') → obj_id o' ≠ obj_id o.
Proof.
  intros Hb1 Hb2 Hroom. simpl. unfold on_object_added, on_object_removed.
  rewrite (on_canvas_room _ _ _ _ _ _ Hb1 Hroom). simpl.
  erewrite on_canvas_room; [|exact Hb2|simpl; apply lookup_insert_eq].
  simpl. rewrite lookup_insert_eq. eexists. split; [done|]. simpl.
  assert (filter (λ o', obj_id o' ≠ obj_id o)
            (objects (canvasState room) ++ [o])%list
          = filter (λ o', obj_id o' ≠ obj_id o) (objects (canvasState room)))
    as ->.
  { rewrite filter_app, filter_cons_False, filter_nil by naive_solver.
    apply app_nil_r. }
  split; [done|].
  intros o' Ho'. by apply list_elem_of_filter in Ho' as [? _].
Qed.

Lemma added_then_removed_witness :
  ∃ room',
    rooms (run [Msg "s1" (ObjectAdded (mkCanvasObject "a1" "line"));
                Msg "s2" (ObjectRemoved "a1")] Sample.drawn)
      !! "K3X9Q2" = Some room' ∧
    objects (canvasState room') = [] ∧
    ∀ o', o' ∈ objects (canvasState room') → obj_id o' ≠ "a1".
Proof.
  destruct (added_then_removed Sample.drawn "s1" "s2" "K3X9Q2"
              (mkRoom
                 [("s1", make_user "s1" Sample.ann);
                  ("s2", make_user "s2" Sample.bob)]
                 (mkCanvasState [Sample.circle] "dark" "#1a1a1a")
                 Sample.pw 1000 86401000
                 (<["u-bob" := O]> ∅) "s1")
              (mkCanvasObject "a1" "line"))
    as (room' & H1 & H2 & H3).
  - vm_compute. reflexivity.
  - vm_compute. reflexivity.
  - vm_compute. reflexivity.
  - exists room'. split; [exact H1|]. split; [exact H2|exact H3].
Defined.

(** C7. When a socket bound to a room sends canvas:object:modified for an
    object whose id no object of the room has, the state after is the
    state before (the object list keeps its length and content), and the
    message is broadcast all the same: it goes to every other socket that
    joined the room. *)
Theorem modified_unknown_id (st : State) (socketId cur : string)
    (o : CanvasObject) :
  bound_to st socketId = Some cur →
  (∀ room o', rooms st !! cur = Some room →
     o' ∈ objects (canvasState room) → obj_id o' ≠ obj_id o) →
  handle socketId (ObjectModified o) st =
    (st, [ToOthers cur socketId (CanvasObjectModified o)]) ∧
  ∀ c, c ≠ socketId → cur ∈ joined (conn_of st c) →
    c ∈ recipients st (ToOthers cur socketId (CanvasObjectModified o)).
Proof.
  intros Hb Habsent. split.
  - simpl. unfold on_object_modified. apply on_canvas_fixed; [done|].
    intros room Hroom. simpl.
    rewrite replace_first_absent by eauto. apply canvas_eta.
  - intros c ? ?. by apply elem_of_recipients_others.
Qed.

Lemma modified_unknown_id_witness :
  handle "s2" (ObjectModified Sample.square) Sample.drawn =
    (Sample.drawn, [ToOthers "K3X9Q2" "s2" (CanvasObjectModified Sample.square)]) ∧
  ∀ c, c ≠ "s2" → "K3X9Q2" ∈ joined (conn_of Sample.drawn c) →
    c ∈ recipients Sample.drawn
          (ToOthers "K3X9Q2" "s2" (CanvasObjectModified Sample.square)).
Proof.
  apply (modified_unknown_id Sample.drawn "s2" "K3X9Q2" Sample.square).
  - vm_compute. reflexivity.
  - intros room o' Hroom. vm_compute in Hroom. injection Hroom as <-.
    simpl. intros Ho'. apply list_elem_of_singleton in Ho' as ->.
    vm_compute. discriminate.
Defined.

(** C8. When a socket bound to a room sends canvas:clear, the room's
    object list becomes empty and nothing else changes: theme and
    canvasColor, password, createdAt, expiresAt, users, rejoinCounts and
    creatorId of the room, every other room and every socket's closure are
    as before; the clear is broadcast to every other socket that joined
    the room. *)
Theorem clear_frame (st : State) (socketId cur : string) (room : Room) :
  bound_to st socketId = Some cur →
  rooms st !! cur = Some room →
  ∃ st' room',
    handle socketId CanvasClear st =
      (st', [ToOthers cur socketId CanvasCleared]) ∧
    rooms st' !! cur = Some room' ∧
    objects (canvasState room') = [] ∧
    theme (canvasState room') = theme (canvasState room) ∧
    canvasColor (canvasState room') = canvasColor (canvasState room) ∧
    password room' = password room ∧
    createdAt room' = createdAt room ∧
    expiresAt room' = expiresAt room ∧
    users room' = users room ∧
    rejoinCounts room' = rejoinCounts room ∧
    creatorId room' = creatorId room ∧
    (∀ r, r ≠ cur → rooms st' !! r = rooms st !! r) ∧
    conns st' = conns st ∧
    ∀ c, c ≠ socketId → cur ∈ joined (conn_of st c) →
      c ∈ recipients st' (ToOthers cur socketId CanvasCleared).
Proof.
  intros Hb Hroom. unfold handle, on_canvas_clear.
  rewrite (on_canvas_room _ _ _ _ _ _ Hb Hroom).
  eexists _, _. split; [reflexivity|].
  split; [apply lookup_insert_eq|].
  do 9 (split; [reflexivity|]).
  split; [by intros r ?; apply lookup_insert_ne|].
  split; [reflexivity|].
  intros c ? ?. by apply elem_of_recipients_others.
Qed.

Lemma clear_frame_witness :
  ∃ st' room',
    handle "s2" CanvasClear Sample.drawn =
      (st', [ToOthers "K3X9Q2" "s2" CanvasCleared]) ∧
    rooms st' !! "K3X9Q2" = Some room' ∧
    objects (canvasState room') = [] ∧
    theme (canvasState room') = "dark" ∧
    Js.keys (users room') = ["s1"; "s2"].
Proof.
  destruct (clear_frame Sample.drawn "s2" "K3X9Q2"
              (mkRoom
                 [("s1", make_user "s1" Sample.ann);
                  ("s2", make_user "s2" Sample.bob)]
                 (mkCanvasState [Sample.circle] "dark" "#1a1a1a")
                 Sample.pw 1000 86401000
                 (<["u-bob" := O]> ∅) "s1"))
    as (st' & room' & H1 & H2 & H3 & H4 & _ & _ & _ & _ & H5 & _).
  - vm_compute. reflexivity.
  - vm_compute. reflexivity.
  - exists st', room'. rewrite H5.
    split; [exact H1|]. split; [exact H2|]. split; [exact H3|].
    split; [exact H4|reflexivity].
Defined.

(** C9. A canvas mutation message (object added, modified or removed,
    clear, theme change, cursor position) from a socket bound to no room
    is ignored: the state after is the state before and nothing is
    emitted, neither a broadcast nor an error to the sender. *)
Theorem unbound_canvas_ignored (st : State) (socketId : string) (ev : Event) :
  canvas_mutation ev = true →
  bound_to st socketId = None →
  handle socketId ev st = (st, []).
Proof.
  intros Hev Hb.
  destruct ev; try discriminate Hev; simpl;
    try (by apply on_canvas_unbound).
  unfold on_cursor_position. unfold bound_to in Hb. by rewrite Hb.
Qed.

Lemma unbound_canvas_ignored_witness :
  handle "s7" (ThemeChange "light" (Some "#ffffff")) Sample.drawn =
    (Sample.drawn, []).
Proof.
  apply (unbound_canvas_ignored Sample.drawn "s7"
           (ThemeChange "light" (Some "#ffffff"))).
  - reflexivity.
  - vm_compute. reflexivity.
Defined.

(** ** Leaving and disconnecting *)

Lemma on_leave_room_bound (st : State) (s cur : string) (room : Room) :
  bound_to st s = Some cur →
  rooms st !! cur = Some room →
  on_leave_room s st =
    (set_conn s
       {| currentRoom := None; currentUser := None;
          joined := joined (conn_of st s) ∖ {[cur]} |}
       (set_rooms
          (if decide (Js.size (Js.delete s (users room)) = O)
           then delete cur (rooms st)
           else <[cur := set_users (Js.delete s (users room)) room]> (rooms st))
          st),
     [ToOthers cur s (UserLeft s)]).
Proof. unfold bound_to, on_leave_room. by intros -> ->. Qed.

Lemma on_disconnect_bound (st : State) (s cur : string) (room : Room) :
  bound_to st s = Some cur →
  rooms st !! cur = Some room →
  on_disconnect s st =
    (set_conn s
       {| currentRoom := currentRoom (conn_of st s);
          currentUser := currentUser (conn_of st s); joined := ∅ |}
       (set_rooms
          (<[cur := set_users (Js.delete s (users room)) room]> (rooms st)) st),
     [ToOthers cur s (UserLeft s)]).
Proof. unfold bound_to, on_disconnect. by intros -> ->. Qed.

Lemma size_nil_iff {V : Type} (m : list (string * V)) :
  Js.size m = O ↔ m = [].
Proof. unfold Js.size. by destruct m. Qed.

Lemma cleanup_lookup (st : State) (now : Z) (r : string) :
  rooms (cleanup now st) !! r =
    match rooms st !! r with
    | Some room => if decide (now > expiresAt room) then None else Some room
    | None => None
    end.
Proof.
  unfold cleanup; simpl.
  destruct (rooms st !! r) as [room|] eqn:Hr.
  - destruct (decide (now > expiresAt room)).
    + apply map_lookup_filter_None. right. intros room' Hr'. simpl.
      rewrite Hr in Hr'. injection Hr' as <-. tauto.
    + apply map_lookup_filter_Some. done.
  - apply map_lookup_filter_None. by left.
Qed.

(** C1, as the server has it. When a socket bound to a room sends
    leave-room and taking it out leaves the room's users map empty, the
    room is deleted from the table at once; when other users remain, the
    room stays in the table with that user taken out. *)
Theorem leave_room_emptied_room (st : State) (socketId cur : string)
    (room : Room) :
  bound_to st socketId = Some cur →
  rooms st !! cur = Some room →
  (Js.delete socketId (users room) = [] →
     rooms (handle socketId LeaveRoom st).1 !! cur = None) ∧
  (Js.delete socketId (users room) ≠ [] →
     rooms (handle socketId LeaveRoom st).1 !! cur =
       Some (set_users (Js.delete socketId (users room)) room)).
Proof.
  intros Hb Hroom. unfold handle.
  rewrite (on_leave_room_bound _ _ _ _ Hb Hroom). simpl.
  split; intros Hus.
  - rewrite decide_True by (by apply size_nil_iff).
    apply lookup_delete_eq.
  - rewrite decide_False by (by rewrite size_nil_iff).
    apply lookup_insert_eq.
Qed.

Lemma leave_room_emptied_room_witness :
  rooms (handle "s1" LeaveRoom Sample.created).1 !! "K3X9Q2" = None ∧
  is_Some (rooms (handle "s2" LeaveRoom Sample.shared).1 !! "K3X9Q2").
Proof.
  split.
  - eapply (leave_room_emptied_room Sample.created "s1" "K3X9Q2").
    + vm_compute. reflexivity.
    + vm_compute. reflexivity.
    + vm_compute. reflexivity.
  - eexists.
    eapply (leave_room_emptied_room Sample.shared "s2" "K3X9Q2").
    + vm_compute. reflexivity.
    + vm_compute. reflexivity.
    + vm_compute. discriminate.
Defined.

(** C1, as the specification has it, fails: socket [s1] is the only user
    of room [K3X9Q2], it is bound to the room, and after its leave-room
    the room is no longer in the table. *)
Lemma leave_room_last_member_room_gone :
  bound_to Sample.created "s1" = Some "K3X9Q2" ∧
  (∃ room, rooms Sample.created !! "K3X9Q2" = Some room ∧
           Js.keys (users room) = ["s1"] ∧
           Js.delete "s1" (users room) = []) ∧
  rooms (handle "s1" LeaveRoom Sample.created).1 !! "K3X9Q2" = None.
Proof.
  split; [vm_compute; reflexivity|]. split.
  - eexists. split; [vm_compute; reflexivity|]. split; reflexivity.
  - vm_compute. reflexivity.
Qed.

(** C10. When the last user of a room disconnects, the user is taken out
    of the room's users map and user-left is broadcast to the other
    sockets of the room, and the room stays in the table with no user; the
    cleanup deletes it once its expiresAt has passed and not before.  A
    leave-room in the same state deletes the room instead. *)
Theorem disconnect_last_member (st : State) (socketId cur : string)
    (room : Room) :
  bound_to st socketId = Some cur →
  rooms st !! cur = Some room →
  Js.delete socketId (users room) = [] →
  ∃ st',
    handle socketId Disconnect st =
      (st', [ToOthers cur socketId (UserLeft socketId)]) ∧
    rooms st' !! cur = Some (set_users [] room) ∧
    (∀ c, c ≠ socketId → cur ∈ joined (conn_of st c) →
       c ∈ recipients st' (ToOthers cur socketId (UserLeft socketId))) ∧
    (∀ now, rooms (cleanup now st') !! cur = None ↔ now > expiresAt room) ∧
    rooms (handle socketId LeaveRoom st).1 !! cur = None.
Proof.
  intros Hb Hroom Hus. unfold handle.
  rewrite (on_disconnect_bound _ _ _ _ Hb Hroom), Hus.
  eexists. split; [reflexivity|].
  split; [apply lookup_insert_eq|].
  split; [|split].
  - intros c Hc Hj. apply elem_of_recipients_others. split; [done|].
    by rewrite conn_of_set_conn_ne.
  - intros now. rewrite cleanup_lookup. simpl. rewrite lookup_insert_eq. simpl.
    destruct (decide (now > expiresAt room)); naive_solver.
  - rewrite (on_leave_room_bound _ _ _ _ Hb Hroom), Hus. simpl.
    apply lookup_delete_eq.
Qed.

Lemma disconnect_last_member_witness :
  ∃ st',
    handle "s1" Disconnect Sample.created =
      (st', [ToOthers "K3X9Q2" "s1" (UserLeft "s1")]) ∧
    (users <$> rooms st' !! "K3X9Q2") = Some [] ∧
    rooms (handle "s1" LeaveRoom Sample.created).1 !! "K3X9Q2" = None.
Proof.
  destruct (disconnect_last_member Sample.created "s1" "K3X9Q2"
              (mkRoom [("s1", make_user "s1" Sample.ann)] initial_canvas
                 Sample.pw 1000 86401000 ∅ "s1"))
    as (st' & H1 & H2 & _ & _ & H3).
  - vm_compute. reflexivity.
  - vm_compute. reflexivity.
  - vm_compute. reflexivity.
  - exists st'. split; [exact H1|]. split; [|exact H3].
    rewrite H2. reflexivity.
Defined.

(** ** Creating a room *)

Lemma length_append (s t : string) :
  String.length (s +:+ t) = (String.length s + String.length t)%nat.
Proof. induction s as [|c s IH]; simpl; [done|]. by rewrite IH. Qed.

Lemma forallb_append p (s t : string) :
  string_forallb p s = true → string_forallb p t = true →
  string_forallb p (s +:+ t) = true.
Proof.
  induction s as [|c s IH]; simpl; [done|].
  intros [-> ?]%andb_true_iff ?. simpl. by apply IH.
Qed.

(** An index below [chars.length] selects one character of [A-Z0-9]. *)
Lemma charAt_chars (i : nat) :
  (i < 36)%nat →
  String.length (Js.charAt i chars) = 1%nat ∧
  string_forallb upper_or_digit (Js.charAt i chars) = true.
Proof.
  intros Hi.
  do 36 (destruct i as [|i]; [by vm_compute|]). lia.
Qed.

Lemma password_loop_spec (pick : nat → nat) (n i : nat) (pw : string) :
  (∀ j, (i ≤ j < i + n)%nat → (pick j < 36)%nat) →
  string_forallb upper_or_digit pw = true →
  String.length (password_loop n i pick pw) = (String.length pw + n)%nat ∧
  string_forallb upper_or_digit (password_loop n i pick pw) = true.
Proof.
  revert i pw. induction n as [|n IH]; intros i pw Hpick Hpw; simpl.
  - split; [lia|done].
  - destruct (charAt_chars (pick i)) as [Hlen Hch]; [apply Hpick; lia|].
    destruct (IH (S i) (pw +:+ Js.charAt (pick i) chars)) as [IH1 IH2].
    + intros j ?. apply Hpick. lia.
    + by apply forallb_append.
    + split; [|done]. rewrite IH1, length_append, Hlen. lia.
Qed.

(** The password has six characters of [A-Z0-9], the six indices drawn
    being below [chars.length] as [Math.random() < 1] makes them. *)
Lemma generateRoomPassword_spec (pick : nat → nat) :
  (∀ i, (i < 6)%nat → (pick i < 36)%nat) →
  String.length (generateRoomPassword pick) = 6%nat ∧
  string_forallb upper_or_digit (generateRoomPassword pick) = true.
Proof.
  intros Hpick. unfold generateRoomPassword.
  destruct (password_loop_spec pick 6 0 "") as [H1 H2]; [|done|done].
  intros j ?. apply Hpick. lia.
Qed.

Lemma length_toUpperCase (s : string) :
  String.length (Js.toUpperCase s) = String.length s.
Proof. induction s; simpl; congruence. Qed.

Lemma length_substring (n m : nat) (s : string) :
  String.length (String.substring n m s) = (m `min` (String.length s - n))%nat.
Proof.
  revert n m. induction s as [|c s IH]; intros n m.
  - destruct n, m; simpl; lia.
  - destruct n as [|n]; [destruct m as [|m]|]; simpl; [done| |apply IH].
    rewrite IH. lia.
Qed.

(** The room id is as long as what follows the first two characters of
    [Math.random().toString(36)], six characters at most. *)
Lemma generateRoomId_length (rnd36 : string) :
  String.length (generateRoomId rnd36) = (6 `min` (String.length rnd36 - 2))%nat.
Proof.
  unfold generateRoomId, Js.substring.
  by rewrite length_toUpperCase, length_substring.
Qed.

(** The room create-room puts in the table. *)
Lemma create_room_room (st : State) (socketId : string) (userData : UserData)
    (rnd36 : string) (pick : nat → nat) (now1 now2 : Z) :
  ∃ room,
    rooms (handle socketId (CreateRoom userData rnd36 pick now1 now2) st).1
      !! generateRoomId rnd36 = Some room ∧
    (handle socketId (CreateRoom userData rnd36 pick now1 now2) st).2 =
      [ToSender socketId
         (RoomCreated (generateRoomId rnd36) (password room)
            (make_user socketId userData))] ∧
    password room = generateRoomPassword pick ∧
    objects (canvasState room) = [] ∧
    theme (canvasState room) = "dark" ∧
    canvasColor (canvasState room) = "#1a1a1a".
Proof.
  simpl. rewrite lookup_insert_eq. eexists. split; [reflexivity|]. done.
Qed.

(** C2, at the draw [Math.random() = 0.5], whose [toString(36)] is the
    string [0.i]: the room id that create-room returns and files the room
    under is the one-character string [I], not a six-character string. The
    password has six characters of [A-Z0-9] and the canvas state is the
    initial one. *)
Theorem create_room_short_roomId :
  ∃ st' roomId pw user,
    handle "s1" (CreateRoom Sample.ann "0.i" Sample.picks 1000 1000) initial =
      (st', [ToSender "s1" (RoomCreated roomId pw user)]) ∧
    roomId = generateRoomId "0.i" ∧
    roomId = "I" ∧
    String.length roomId ≠ 6%nat ∧
    pw = "BGLQV0" ∧
    (canvasState <$> rooms st' !! roomId) =
      Some (mkCanvasState [] "dark" "#1a1a1a").
Proof.
  eexists _, _, _, _. split; [reflexivity|].
  split; [reflexivity|]. split; [reflexivity|].
  split; [discriminate|]. split; [reflexivity|].
  by vm_compute.
Qed.

(** ** One room per socket *)

Section MembersBound.
Variable st : State.
Hypothesis Hinv : members_bound st.

Lemma members_bound_create (s : string) userData rnd36 pick now1 now2 :
  currentRoom (conn_of st s) = None →
  members_bound (on_create_room s userData rnd36 pick now1 now2 st).1.
Proof.
  intros Hs c r room. simpl. unfold is_member.
  destruct (decide (generateRoomId rnd36 = r)) as [<-|Hne].
  - rewrite lookup_insert_eq. intros [= <-]. simpl.
    destruct (decide (s = c)) as [<-|]; [|by intros []].
    intros _. by rewrite conn_of_set_rooms, conn_of_set_conn_eq.
  - rewrite lookup_insert_ne by done. intros Hr Hc.
    pose proof (Hinv _ _ _ Hr Hc) as Hcur.
    destruct (decide (s = c)) as [<-|]; [congruence|].
    by rewrite conn_of_set_rooms, conn_of_set_conn_ne.
Qed.

Lemma members_bound_delete (r : string) :
  members_bound (set_rooms (delete r (rooms st)) st).
Proof.
  intros c r' room. simpl. intros [_ Hr]%lookup_delete_Some Hc.
  rewrite conn_of_set_rooms. by eapply Hinv.
Qed.

Lemma members_bound_validate (s roomId pw : string) (now : Z) :
  members_bound (on_validate_room s roomId pw now st).1.
Proof.
  unfold on_validate_room.
  destruct (rooms st !! roomId) as [room|]; [|done].
  destruct (decide (now > expiresAt room)); [apply members_bound_delete|].
  by destruct (decide (password room ≠ pw)).
Qed.

Lemma members_bound_join (s roomId pw : string) userData (now : Z) :
  currentRoom (conn_of st s) = None →
  members_bound (on_join_room s roomId pw userData now st).1.
Proof.
  intros Hs. unfold on_join_room.
  destruct (rooms st !! roomId) as [room|] eqn:Hroom; [|done].
  destruct (decide (now > expiresAt room)); [apply members_bound_delete|].
  destruct (decide (password room ≠ pw)); [done|].
  destruct (decide (3 ≤ _)%nat); [done|].
  intros c r room'. simpl. unfold is_member.
  destruct (decide (s = c)) as [<-|Hsc].
  - rewrite conn_of_set_rooms, conn_of_set_conn_eq. simpl.
    destruct (decide (roomId = r)) as [<-|Hne]; [done|].
    rewrite lookup_insert_ne by done. intros Hr Hc.
    pose proof (Hinv _ _ _ Hr Hc). congruence.
  - rewrite conn_of_set_rooms, conn_of_set_conn_ne by done.
    destruct (decide (roomId = r)) as [<-|Hne].
    + rewrite lookup_insert_eq. intros [= <-]. simpl.
      rewrite get_set, decide_False by done. by apply Hinv.
    + rewrite lookup_insert_ne by done. apply Hinv.
Qed.

Lemma members_bound_canvas (s : string) f p :
  members_bound (on_canvas s f p st).1.
Proof.
  unfold on_canvas.
  destruct (Js.truthy _) as [cur|]; [|done]. simpl.
  destruct (rooms st !! cur) as [room|] eqn:Hroom; [|done].
  intros c r room'. simpl. rewrite conn_of_set_rooms.
  destruct (decide (cur = r)) as [<-|Hne].
  - rewrite lookup_insert_eq. intros [= <-]. exact (Hinv _ _ _ Hroom).
  - rewrite lookup_insert_ne by done. apply Hinv.
Qed.

Lemma members_bound_cursor (s : string) (x y : Z) :
  members_bound (on_cursor_position s x y st).1.
Proof. unfold on_cursor_position. by destruct (Js.truthy _). Qed.

Lemma members_bound_leave (s : string) :
  members_bound (on_leave_room s st).1.
Proof.
  unfold on_leave_room.
  destruct (Js.truthy _) as [cur|] eqn:Hcur; [|done].
  apply truthy_Some in Hcur as [Hcur _].
  destruct (rooms st !! cur) as [room|] eqn:Hroom; simpl.
  - intros c r room'. simpl. unfold is_member.
    destruct (decide (s = c)) as [<-|Hsc].
    + intros Hr Hc. exfalso.
      destruct (decide (Js.size _ = O)).
      * apply lookup_delete_Some in Hr as [Hne Hr].
        pose proof (Hinv _ _ _ Hr Hc). congruence.
      * destruct (decide (cur = r)) as [<-|Hne].
        -- rewrite lookup_insert_eq in Hr. injection Hr as <-.
           simpl in Hc. rewrite get_delete_eq in Hc. by destruct Hc.
        -- rewrite lookup_insert_ne in Hr by done.
           pose proof (Hinv _ _ _ Hr Hc). congruence.
    + rewrite conn_of_set_conn_ne, conn_of_set_rooms by done.
      destruct (decide (Js.size _ = O)).
      * intros [_ Hr]%lookup_delete_Some. by apply Hinv.
      * destruct (decide (cur = r)) as [<-|Hne].
        -- rewrite lookup_insert_eq. intros [= <-]. simpl.
           rewrite get_delete, decide_False by done. by apply Hinv.
        -- rewrite lookup_insert_ne by done. apply Hinv.
  - intros c r room' Hr Hc. simpl in Hr.
    pose proof (Hinv _ _ _ Hr Hc) as Hb.
    destruct (decide (s = c)) as [<-|Hsc]; [congruence|].
    by rewrite conn_of_set_conn_ne.
Qed.

Lemma members_bound_disconnect (s : string) :
  members_bound (on_disconnect s st).1.
Proof.
  assert (∀ c j, currentRoom (conn_of (set_conn s
             {| currentRoom := currentRoom (conn_of st s);
                currentUser := currentUser (conn_of st s);
                joined := j |} st) c) = currentRoom (conn_of st c)) as Hcur.
  { intros c j. destruct (decide (s = c)) as [<-|].
    - by rewrite conn_of_set_conn_eq.
    - by rewrite conn_of_set_conn_ne. }
  unfold on_disconnect.
  destruct (Js.truthy _) as [cur|]; simpl.
  - destruct (rooms st !! cur) as [room|] eqn:Hroom; simpl.
    + intros c r room'. simpl. unfold is_member.
      rewrite <- (conn_of_set_rooms st (<[cur := set_users (Js.delete s (users room)) room]> (rooms st))).
      change (conn_of (set_conn s ?k (set_rooms ?rs st)) c)
        with (conn_of (set_conn s k st) c).
      rewrite Hcur.
      destruct (decide (cur = r)) as [<-|Hne].
      * rewrite lookup_insert_eq. intros [= <-]. simpl.
        rewrite get_delete. destruct (decide (s = c)); [by intros []|].
        by apply Hinv.
      * rewrite lookup_insert_ne by done. apply Hinv.
    + intros c r room' Hr Hc. rewrite Hcur. by eapply Hinv.
  - intros c r room' Hr Hc. rewrite Hcur. by eapply Hinv.
Qed.

Lemma members_bound_cleanup (now : Z) : members_bound (cleanup now st).
Proof.
  intros c r room. unfold cleanup. simpl.
  intros [Hr _]%map_lookup_filter_Some. rewrite conn_of_set_rooms.
  by apply Hinv.
Qed.

Lemma members_bound_step (a : Action) :
  orderly st a → members_bound (run_action a st).
Proof.
  destruct a as [s ev|now]; simpl; [|intros _; apply members_bound_cleanup].
  destruct ev; simpl; intros Hord.
  - by apply members_bound_create, Hord.
  - apply members_bound_validate.
  - by apply members_bound_join, Hord.
  - apply members_bound_canvas.
  - apply members_bound_canvas.
  - apply members_bound_canvas.
  - apply members_bound_canvas.
  - apply members_bound_cursor.
  - apply members_bound_canvas.
  - apply members_bound_leave.
  - apply members_bound_disconnect.
Qed.
End MembersBound.

Lemma members_bound_initial : members_bound initial.
Proof. intros c r room Hr. simpl in Hr. by rewrite lookup_empty in Hr. Qed.

Lemma reachable_members_bound (st : State) : reachable st → members_bound st.
Proof.
  induction 1 as [|st a _ IH Hord]; [apply members_bound_initial|].
  by apply members_bound_step.
Qed.

(** C3, as the server has it. In every state reached from the empty
    server by messages and cleanup runs in which create-room and join-room
    are sent only by sockets whose [currentRoom] is [null], a socket is a
    user of at most one room of the table, and that room is its
    [currentRoom]. *)
Theorem member_of_one_room (st : State) (c r1 r2 : string)
    (room1 room2 : Room) :
  reachable st →
  rooms st !! r1 = Some room1 → is_member c room1 →
  rooms st !! r2 = Some room2 → is_member c room2 →
  r1 = r2 ∧ currentRoom (conn_of st c) = Some r1.
Proof.
  intros Hreach Hr1 Hc1 Hr2 Hc2.
  pose proof (reachable_members_bound st Hreach) as Hinv.
  pose proof (Hinv _ _ _ Hr1 Hc1) as H1.
  pose proof (Hinv _ _ _ Hr2 Hc2) as H2.
  split; [congruence|done].
Qed.

Lemma reachable_shared : reachable Sample.shared.
Proof.
  apply (reachable_step _ (Msg "s2" (JoinRoom "K3X9Q2" Sample.pw Sample.bob 2000))).
  - apply (reachable_step _
             (Msg "s1" (CreateRoom Sample.ann "0.k3x9q2mzr1p" Sample.picks 1000 1000))).
    + apply reachable_initial.
    + intros _. vm_compute. reflexivity.
  - intros _. vm_compute. reflexivity.
Defined.

Lemma member_of_one_room_witness :
  "K3X9Q2" = "K3X9Q2" ∧
  currentRoom (conn_of Sample.shared "s2") = Some "K3X9Q2".
Proof.
  apply (member_of_one_room Sample.shared "s2" "K3X9Q2" "K3X9Q2"
           (mkRoom
              [("s1", make_user "s1" Sample.ann);
               ("s2", make_user "s2" Sample.bob)]
              initial_canvas Sample.pw 1000 86401000
              (<["u-bob" := O]> ∅) "s1")
           (mkRoom
              [("s1", make_user "s1" Sample.ann);
               ("s2", make_user "s2" Sample.bob)]
              initial_canvas Sample.pw 1000 86401000
              (<["u-bob" := O]> ∅) "s1")).
  - exact reachable_shared.
  - vm_compute. reflexivity.
  - vm_compute. eexists. reflexivity.
  - vm_compute. reflexivity.
  - vm_compute. eexists. reflexivity.
Defined.

(** C3, as the specification has it, fails: socket [s1] creates room
    [K3X9Q2] and, without leaving it, joins room [7HD2M5]; it is then a
    user of both rooms. *)
Lemma socket_in_two_rooms :
  ∃ room1 room2,
    rooms Sample.crossed !! "K3X9Q2" = Some room1 ∧
    rooms Sample.crossed !! "7HD2M5" = Some room2 ∧
    is_member "s1" room1 ∧ is_member "s1" room2 ∧
    "K3X9Q2" ≠ "7HD2M5".
Proof.
  eexists _, _.
  split; [vm_compute; reflexivity|].
  split; [vm_compute; reflexivity|].
  split; [vm_compute; eexists; reflexivity|].
  split; [vm_compute; eexists; reflexivity|].
  discriminate.
Qed.

(** * Further properties of the server *)

(** ** Rejoin counts *)

Section RejoinBounded.
Variable st : State.
Hypothesis Hinv : rejoin_bounded st.

Lemma rejoin_bounded_rooms (rs : gmap string Room) (cs : gmap string Conn) :
  (∀ r room', rs !! r = Some room' →
     (∃ room, rooms st !! r = Some room ∧ rejoinCounts room' = rejoinCounts room)
     ∨ (∀ key n, rejoinCounts room' !! key = Some n → (n ≤ 3)%nat)) →
  rejoin_bounded {| rooms := rs; conns := cs |}.
Proof.
  intros H r room' key n Hr Hk. simpl in Hr.
  destruct (H _ _ Hr) as [(room & Hroom & Heq)|Hb]; [|by eapply Hb].
  rewrite Heq in Hk. by eapply Hinv.
Qed.

Lemma rejoin_bounded_handle (s : string) (ev : Event) :
  rejoin_bounded (handle s ev st).1.
Proof.
  assert (∀ cur room (f : Room → Room) cs,
            rooms st !! cur = Some room →
            rejoinCounts (f room) = rejoinCounts room →
            rejoin_bounded
              {| rooms := <[cur := f room]> (rooms st); conns := cs |}) as Hupd.
  { intros cur room f cs Hroom Hf. apply rejoin_bounded_rooms.
    intros r room' Hr. left. destruct (decide (cur = r)) as [<-|].
    - rewrite lookup_insert_eq in Hr. injection Hr as <-. eauto.
    - rewrite lookup_insert_ne in Hr by done. eauto. }
  assert (∀ cur cs,
            rejoin_bounded {| rooms := delete cur (rooms st); conns := cs |})
    as Hdel.
  { intros cur cs. apply rejoin_bounded_rooms.
    intros r room' [_ Hr]%lookup_delete_Some. eauto. }
  assert (∀ cs, rejoin_bounded {| rooms := rooms st; conns := cs |}) as Hsame.
  { intros cs. apply rejoin_bounded_rooms. eauto. }
  assert (∀ s' f p, rejoin_bounded (on_canvas s' f p st).1) as Hcanvas.
  { intros s' f p. unfold on_canvas.
    destruct (Js.truthy _) as [cur|]; simpl; [|by destruct st; apply Hsame].
    destruct (rooms st !! cur) as [room|] eqn:Hroom;
      [|by destruct st; apply Hsame].
    by apply (Hupd cur room (set_canvasState (f (canvasState room)))). }
  destruct ev; simpl; try apply Hcanvas.
  - (* create-room *)
    apply rejoin_bounded_rooms. intros r room' Hr.
    destruct (decide (generateRoomId rnd36 = r)) as [<-|].
    + rewrite lookup_insert_eq in Hr. injection Hr as <-. right.
      intros key n Hk. simpl in Hk. by rewrite lookup_empty in Hk.
    + rewrite lookup_insert_ne in Hr by done. eauto.
  - (* validate-room *)
    unfold on_validate_room.
    destruct (rooms st !! roomId) as [room|]; [|by destruct st; apply Hsame].
    destruct (decide (now > expiresAt room)); [apply Hdel|].
    destruct (decide (password room ≠ pw)); by destruct st; apply Hsame.
  - (* join-room *)
    unfold on_join_room.
    destruct (rooms st !! roomId) as [room|] eqn:Hroom;
      [|by destruct st; apply Hsame].
    destruct (decide (now > expiresAt room)); [apply Hdel|].
    destruct (decide (password room ≠ pw)); [by destruct st; apply Hsame|].
    destruct (decide (3 ≤ _)%nat) as [|Hlt]; [by destruct st; apply Hsame|].
    apply rejoin_bounded_rooms. intros r room' Hr.
    destruct (decide (roomId = r)) as [<-|].
    + rewrite lookup_insert_eq in Hr. injection Hr as <-. right.
      intros key m. simpl.
      destruct (decide (userIdToTrack s userData = key)) as [<-|Hne].
      * destruct (decide _); rewrite lookup_insert_eq; intros [= <-]; lia.
      * destruct (decide _); rewrite lookup_insert_ne by done;
          intros Hk; by eapply Hinv.
    + rewrite lookup_insert_ne in Hr by done. eauto.
  - (* cursor *)
    unfold on_cursor_position.
    destruct (Js.truthy _); by destruct st; apply Hsame.
  - (* leave-room *)
    unfold on_leave_room.
    destruct (Js.truthy _) as [cur|]; [|by destruct st; apply Hsame].
    destruct (rooms st !! cur) as [room|] eqn:Hroom; simpl; [|apply Hsame].
    destruct (decide _); [apply Hdel|].
    by apply (Hupd cur room (set_users (Js.delete s (users room)))).
  - (* disconnect *)
    unfold on_disconnect.
    destruct (Js.truthy _) as [cur|]; simpl; [|apply Hsame].
    destruct (rooms st !! cur) as [room|] eqn:Hroom; simpl; [|apply Hsame].
    by apply (Hupd cur room (set_users (Js.delete s (users room)))).
Qed.

Lemma rejoin_bounded_cleanup (now : Z) : rejoin_bounded (cleanup now st).
Proof.
  apply rejoin_bounded_rooms.
  intros r room' [Hr _]%map_lookup_filter_Some. eauto.
Qed.
End RejoinBounded.

(** X1. Whatever messages arrive and whenever the cleanup runs, no rejoin
    count of any room ever exceeds 3. *)
Theorem rejoin_counts_bounded (l : list Action) :
  rejoin_bounded (run l initial).
Proof.
  assert (∀ st, rejoin_bounded st → rejoin_bounded (run l st)) as H.
  { induction l as [|a l IH]; intros st Hst; [done|].
    simpl. apply IH. destruct a as [s ev|now]; simpl.
    - by apply rejoin_bounded_handle.
    - by apply rejoin_bounded_cleanup. }
  apply H. intros r room key n Hr. simpl in Hr. by rewrite lookup_empty in Hr.
Qed.

(** X2. While a room stays in the table its rejoin counts never go down:
    after any message other than a create-room that reuses the room's id,
    a key counted [n] before is counted at least [n]. In particular
    leave-room and disconnect keep the counts, and a key that has reached
    the limit stays at the limit. *)
Theorem rejoin_counts_never_decrease (st : State) (s : string) (ev : Event)
    (r : string) (room room' : Room) (key : string) (n : nat) :
  ¬ creates r ev →
  rooms st !! r = Some room →
  rooms (handle s ev st).1 !! r = Some room' →
  rejoinCounts room !! key = Some n →
  ∃ n', rejoinCounts room' !! key = Some n' ∧ (n ≤ n')%nat.
Proof.
  intros Hev Hroom Hroom' Hkey.
  assert (rejoinCounts room' = rejoinCounts room →
          ∃ n', rejoinCounts room' !! key = Some n' ∧ (n ≤ n')%nat) as Hsame.
  { intros ->. eauto. }
  assert (∀ cur (f : Room → Room) cs,
            (∀ x, rejoinCounts (f x) = rejoinCounts x) →
            rooms {| rooms := match rooms st !! cur with
                              | Some x => <[cur := f x]> (rooms st)
                              | None => rooms st
                              end; conns := cs |} !! r = Some room' →
            rejoinCounts room' = rejoinCounts room) as Hupd.
  { intros cur f cs Hf. simpl.
    destruct (rooms st !! cur) as [x|] eqn:Hx; [|congruence].
    destruct (decide (cur = r)) as [->|].
    - rewrite lookup_insert_eq. intros [= <-]. rewrite Hf. congruence.
    - rewrite lookup_insert_ne by done. congruence. }
  assert (∀ s' f p, rooms (on_canvas s' f p st).1 !! r = Some room' →
                    rejoinCounts room' = rejoinCounts room) as Hcanvas.
  { intros s' f p. unfold on_canvas.
    destruct (Js.truthy _) as [cur|]; simpl; [|congruence].
    intros H. apply (Hupd cur (λ x, set_canvasState (f (canvasState x)) x) ∅);
      [done|].
    simpl. by destruct (rooms st !! cur). }
  destruct ev; simpl in Hroom', Hev; try (apply Hsame; by eapply Hcanvas).
  - (* create-room *)
    rewrite lookup_insert_ne in Hroom' by done. apply Hsame. (simpl in *; congruence).
  - (* validate-room *)
    apply Hsame. unfold on_validate_room in Hroom'.
    destruct (rooms st !! roomId) as [x|]; [|(simpl in *; congruence)].
    destruct (decide (now > expiresAt x)); simpl in Hroom'.
    + apply lookup_delete_Some in Hroom' as [_ Hr']. rewrite Hroom in Hr'. by injection Hr' as <-.
    + destruct (decide (password x ≠ pw)); (simpl in *; congruence).
  - (* join-room *)
    unfold on_join_room in Hroom'.
    destruct (rooms st !! roomId) as [x|] eqn:Hx; [|apply Hsame; (simpl in *; congruence)].
    destruct (decide (now > expiresAt x)); simpl in Hroom'.
    { apply lookup_delete_Some in Hroom' as [_ ?]. apply Hsame. (simpl in *; congruence). }
    destruct (decide (password x ≠ pw)); [apply Hsame; (simpl in *; congruence)|].
    destruct (decide (3 ≤ _)%nat); [apply Hsame; (simpl in *; congruence)|].
    simpl in Hroom'. destruct (decide (roomId = r)) as [->|].
    + rewrite lookup_insert_eq in Hroom'. injection Hroom' as <-. simpl.
      assert (x = room) as -> by (simpl in *; congruence).
      destruct (decide (userIdToTrack s userData = key)) as [->|Hne].
      * rewrite Hkey. simpl. rewrite decide_True by eauto.
        rewrite lookup_insert_eq. eexists. split; [done|lia].
      * destruct (decide _); rewrite lookup_insert_ne by done; eauto.
    + rewrite lookup_insert_ne in Hroom' by done. apply Hsame. (simpl in *; congruence).
  - (* cursor *)
    apply Hsame. unfold on_cursor_position in Hroom'.
    destruct (Js.truthy _); (simpl in *; congruence).
  - (* leave-room *)
    apply Hsame. unfold on_leave_room in Hroom'.
    destruct (Js.truthy _) as [cur|]; [|(simpl in *; congruence)].
    destruct (rooms st !! cur) as [x|] eqn:Hx; simpl in Hroom'; [|(simpl in *; congruence)].
    destruct (decide _).
    + apply lookup_delete_Some in Hroom' as [_ ?]. (simpl in *; congruence).
    + destruct (decide (cur = r)) as [->|].
      * rewrite lookup_insert_eq in Hroom'. injection Hroom' as <-. simpl.
        (simpl in *; congruence).
      * rewrite lookup_insert_ne in Hroom' by done. (simpl in *; congruence).
  - (* disconnect *)
    apply Hsame. unfold on_disconnect in Hroom'.
    destruct (Js.truthy _) as [cur|]; simpl in Hroom'; [|(simpl in *; congruence)].
    destruct (rooms st !! cur) as [x|] eqn:Hx; simpl in Hroom'; [|(simpl in *; congruence)].
    destruct (decide (cur = r)) as [->|].
    + rewrite lookup_insert_eq in Hroom'. injection Hroom' as <-. simpl.
      (simpl in *; congruence).
    + rewrite lookup_insert_ne in Hroom' by done. (simpl in *; congruence).
Qed.

Lemma rejoin_counts_never_decrease_witness :
  ∃ n', rejoinCounts
          (mkRoom [("s1", make_user "s1" Sample.ann)] initial_canvas
             Sample.pw 1000 86401000 (<["u-bob" := 3%nat]> ∅) "s1")
          !! "u-bob" = Some n' ∧ (3 ≤ n')%nat.
Proof.
  apply (rejoin_counts_never_decrease Sample.rejoined "s6"
           (JoinRoom "K3X9Q2" Sample.pw Sample.bob 6000) "K3X9Q2"
           (mkRoom [("s1", make_user "s1" Sample.ann)] initial_canvas
              Sample.pw 1000 86401000 (<["u-bob" := 3%nat]> ∅) "s1")
           _ "u-bob" 3).
  - simpl. tauto.
  - vm_compute. reflexivity.
  - vm_compute. reflexivity.
  - vm_compute. reflexivity.
Defined.

(** ** Validating and joining *)

(** X3. validate-room never touches the sockets' closures; it answers
    room-validation-success exactly when the room exists, its expiresAt
    has not passed and the password is the room's; and it changes the
    table only by deleting the room it finds expired. *)
Theorem validate_room_answer (st : State) (s r pw : string) (now : Z) :
  conns (handle s (ValidateRoom r pw now) st).1 = conns st ∧
  ((handle s (ValidateRoom r pw now) st).2 = [ToSender s RoomValidationSuccess]
     ↔ ∃ room, rooms st !! r = Some room ∧ now ≤ expiresAt room ∧
               password room = pw) ∧
  rooms (handle s (ValidateRoom r pw now) st).1 =
    match rooms st !! r with
    | Some room => if decide (now > expiresAt room) then delete r (rooms st)
                   else rooms st
    | None => rooms st
    end.
Proof.
  simpl. unfold on_validate_room.
  destruct (rooms st !! r) as [room|] eqn:Hroom; simpl.
  - destruct (decide (now > expiresAt room)); simpl.
    + split; [done|]. split; [|done]. split; [done|].
      intros (? & [= <-] & ? & _). lia.
    + destruct (decide (password room ≠ pw)); simpl.
      * split; [done|]. split; [|done]. split; [done|].
        intros (? & [= <-] & _ & ?). done.
      * split; [done|]. split; [|done]. split; [|done].
        intros _. exists room. split; [done|]. split; [lia|].
        by destruct (decide (password room = pw)).
  - split; [done|]. split; [|done]. split; [done|].
    by intros (? & ? & _).
Qed.

Lemma keys_set {V : Type} (m : list (string * V)) (k : string) (v : V) :
  Js.keys (Js.set k v m) =
    match Js.get k m with
    | Some _ => Js.keys m
    | None => (Js.keys m ++ [k])%list
    end.
Proof.
  unfold Js.keys. induction m as [|[k0 v0] m IH]; simpl; [done|].
  destruct (decide (k0 = k)) as [->|Hne]; simpl; [done|].
  rewrite IH. by destruct (Js.get k m).
Qed.

(** X4. A join-room request for an existing room whose expiresAt has not
    passed, with the room's password and under a key counted less than 3,
    succeeds: the socket is bound to the room and joined to its broadcast
    group; the user is entered under the socket id, in place when the
    socket was already a user and last otherwise, and the other users stay;
    the key is recorded at 0 when it was not recorded and one higher when
    it was; the canvas is untouched; the sender gets room-joined with the
    canvas, the users and the count, and the others get user-joined. *)
Theorem join_room_success (st : State) (s r pw : string) (userData : UserData)
    (now : Z) (room : Room) :
  rooms st !! r = Some room →
  now ≤ expiresAt room →
  password room = pw →
  (default O (rejoinCounts room !! userIdToTrack s userData) < 3)%nat →
  ∃ st' room',
    handle s (JoinRoom r pw userData now) st =
      (st',
       [ToSender s
          (RoomJoined r (make_user s userData) (canvasState room)
             (Js.values (users room'))
             (rejoinCounts room' !! userIdToTrack s userData));
        ToOthers r s (UserJoined (make_user s userData))]) ∧
    rooms st' !! r = Some room' ∧
    (∀ r', r' ≠ r → rooms st' !! r' = rooms st !! r') ∧
    currentRoom (conn_of st' s) = Some r ∧
    currentUser (conn_of st' s) = Some (make_user s userData) ∧
    r ∈ joined (conn_of st' s) ∧
    (∀ c, c ≠ s → conn_of st' c = conn_of st c) ∧
    Js.get s (users room') = Some (make_user s userData) ∧
    (∀ c, c ≠ s → Js.get c (users room') = Js.get c (users room)) ∧
    Js.keys (users room') =
      (if decide (is_member s room) then Js.keys (users room)
       else (Js.keys (users room) ++ [s])%list) ∧
    rejoinCounts room' !! userIdToTrack s userData =
      Some (match rejoinCounts room !! userIdToTrack s userData with
            | Some n => S n
            | None => O
            end) ∧
    (∀ k, k ≠ userIdToTrack s userData →
       rejoinCounts room' !! k = rejoinCounts room !! k) ∧
    canvasState room' = canvasState room ∧
    password room' = password room ∧
    expiresAt room' = expiresAt room.
Proof.
  intros Hroom Hnow Hpw Hcount. unfold handle, on_join_room.
  rewrite Hroom.
  rewrite (decide_False (P := now > expiresAt room)) by lia.
  rewrite (decide_False (P := password room ≠ pw)) by (intros ?; done).
  rewrite (decide_False (P := (3 ≤ _)%nat)) by lia.
  match goal with
  | |- context [<[r := ?x]> (rooms st)] => eexists _, x
  end.
  split; [reflexivity|].
  split; [apply lookup_insert_eq|].
  split; [by intros r' ?; apply lookup_insert_ne|].
  rewrite conn_of_set_rooms, conn_of_set_conn_eq.
  split; [done|]. split; [done|]. split; [set_solver|].
  split; [by intros c ?; rewrite conn_of_set_rooms, conn_of_set_conn_ne|].
  split; [by cbn; rewrite get_set, decide_True|].
  split; [by intros c ?; cbn; rewrite get_set, decide_False|].
  split.
  { cbn [users set_rejoinCounts set_users]. rewrite keys_set. unfold is_member.
    destruct (Js.get s (users room)).
    - by rewrite decide_True by eauto.
    - by rewrite decide_False by (by intros []). }
  split.
  { cbn [rejoinCounts set_rejoinCounts set_users].
    destruct (rejoinCounts room !! userIdToTrack s userData) as [n|];
      destruct (decide _) as [Hd|Hd]; rewrite lookup_insert_eq.
    - f_equal. simpl. lia.
    - destruct Hd. right. eauto.
    - destruct Hd as [Hd|[? Hd]]; [simpl in Hd; lia|done].
    - done. }
  split; [|done].
  intros k Hk. cbn [rejoinCounts set_rejoinCounts set_users].
  destruct (decide _); by rewrite lookup_insert_ne.
Qed.

Lemma join_room_success_witness :
  ∃ st' room',
    handle "s2" (JoinRoom "K3X9Q2" Sample.pw Sample.bob 2000) Sample.created =
      (st',
       [ToSender "s2"
          (RoomJoined "K3X9Q2" (make_user "s2" Sample.bob) initial_canvas
             [make_user "s1" Sample.ann; make_user "s2" Sample.bob] (Some O));
        ToOthers "K3X9Q2" "s2" (UserJoined (make_user "s2" Sample.bob))]) ∧
    rooms st' !! "K3X9Q2" = Some room' ∧
    Js.keys (users room') = ["s1"; "s2"].
Proof.
  destruct (join_room_success Sample.created "s2" "K3X9Q2" Sample.pw
              Sample.bob 2000
              (mkRoom [("s1", make_user "s1" Sample.ann)] initial_canvas
                 Sample.pw 1000 86401000 ∅ "s1"))
    as (st' & room' & H1 & H2 & _ & _ & _ & _ & _ & _ & _ & H3 & _).
  - vm_compute. reflexivity.
  - vm_compute. discriminate.
  - reflexivity.
  - vm_compute. lia.
  - exists st', room'. split; [|split; [exact H2|exact H3]].
    rewrite H1. f_equal. vm_compute in H1. injection H1 as <-.
    vm_compute in H2. injection H2 as <-. reflexivity.
Defined.

Lemma set_singleton_ne {V : Type} (k k' : string) (v v' : V) :
  k ≠ k' → Js.set k' v' [(k, v)] = [(k, v); (k', v')].
Proof. intros. simpl. by rewrite decide_False. Qed.

(** X6. A room can be joined with what create-room returned: after any
    socket has created a room, another socket that sends join-room with
    the returned room id and password no later than 24 hours after the
    creation's clock reading is let in; it finds the canvas empty, the
    creator and itself as the users, in that order, and its count at 0,
    and both sockets are then bound to the room. *)
Theorem create_then_join (st : State) (s1 s2 : string) (ud1 ud2 : UserData)
    (rnd36 : string) (pick : nat → nat) (now1 now2 now : Z) :
  s1 ≠ s2 →
  now ≤ now2 + 86400000 →
  ∃ st1 roomId pw st2 room,
    handle s1 (CreateRoom ud1 rnd36 pick now1 now2) st =
      (st1, [ToSender s1 (RoomCreated roomId pw (make_user s1 ud1))]) ∧
    handle s2 (JoinRoom roomId pw ud2 now) st1 =
      (st2,
       [ToSender s2
          (RoomJoined roomId (make_user s2 ud2)
             (mkCanvasState [] "dark" "#1a1a1a")
             [make_user s1 ud1; make_user s2 ud2] (Some O));
        ToOthers roomId s2 (UserJoined (make_user s2 ud2))]) ∧
    rooms st2 !! roomId = Some room ∧
    Js.keys (users room) = [s1; s2] ∧
    currentRoom (conn_of st2 s1) = Some roomId ∧
    currentRoom (conn_of st2 s2) = Some roomId.
Proof.
  intros Hne Hnow.
  eexists _, _, _. unfold handle at 1. unfold on_create_room.
  match goal with
  | |- ∃ st2 room, (?a, ?b) = _ ∧ _ => set (st1 := a)
  end.
  assert (rooms st1 !! generateRoomId rnd36 =
            Some (mkRoom [(s1, make_user s1 ud1)] initial_canvas
                    (generateRoomPassword pick) now1 (now2 + day_ms) ∅ s1))
    as Hroom by apply lookup_insert_eq.
  unfold handle, on_join_room. rewrite Hroom.
  cbn [expiresAt password rejoinCounts users canvasState].
  rewrite (decide_False (P := now > _)) by (unfold day_ms; lia).
  rewrite (decide_False (P := _ ≠ _)) by (intros ?; done).
  rewrite lookup_empty. cbn [default].
  rewrite (decide_False (P := (3 ≤ 0)%nat)) by lia.
  rewrite (decide_False (P := _ ∨ _)) by (intros [?|[? ?]]; [lia|done]).
  rewrite set_singleton_ne by done.
  eexists _, _. split; [reflexivity|]. split.
  { cbn [rejoinCounts users set_rejoinCounts set_users].
    rewrite lookup_insert_eq. reflexivity. }
  split; [apply lookup_insert_eq|].
  split; [reflexivity|].
  rewrite !conn_of_set_rooms, conn_of_set_conn_eq.
  rewrite conn_of_set_conn_ne by done.
  split; [|done]. subst st1.
  by rewrite conn_of_set_rooms, conn_of_set_conn_eq.
Qed.

Lemma create_then_join_witness :
  ∃ st1 roomId pw st2 room,
    handle "s1" (CreateRoom Sample.ann "0.k3x9q2mzr1p" Sample.picks 1000 1000)
      initial =
      (st1, [ToSender "s1" (RoomCreated roomId pw (make_user "s1" Sample.ann))]) ∧
    handle "s2" (JoinRoom roomId pw Sample.bob 86401000) st1 =
      (st2,
       [ToSender "s2"
          (RoomJoined roomId (make_user "s2" Sample.bob)
             (mkCanvasState [] "dark" "#1a1a1a")
             [make_user "s1" Sample.ann; make_user "s2" Sample.bob] (Some O));
        ToOthers roomId "s2" (UserJoined (make_user "s2" Sample.bob))]) ∧
    rooms st2 !! roomId = Some room ∧
    Js.keys (users room) = ["s1"; "s2"] ∧
    currentRoom (conn_of st2 "s1") = Some roomId ∧
    currentRoom (conn_of st2 "s2") = Some roomId.
Proof.
  apply (create_then_join initial "s1" "s2" Sample.ann Sample.bob
           "0.k3x9q2mzr1p" Sample.picks 1000 1000 86401000).
  - discriminate.
  - lia.
Defined.



(** ** The cleanup *)

(** X8. The cleanup keeps exactly the rooms whose expiresAt has not
    passed, each as it was, and touches no socket: a socket bound to a
    room that is swept stays bound to it. *)
Theorem cleanup_keeps_unexpired (st : State) (now : Z) :
  (∀ r room,
     rooms (cleanup now st) !! r = Some room ↔
     rooms st !! r = Some room ∧ now ≤ expiresAt room) ∧
  conns (cleanup now st) = conns st ∧
  ∀ s, bound_to (cleanup now st) s = bound_to st s.
Proof.
  split; [|done]. intros r room. rewrite cleanup_lookup.
  destruct (rooms st !! r) as [x|]; [|by split; [|intros [? _]]].
  destruct (decide (now > expiresAt x)).
  - split; [done|]. intros [[= ->] ?]. lia.
  - split; [intros [= ->]; split; [done|lia]|]. by intros [? _].
Qed.

(** X9. Running the cleanup again, at the same or a later clock reading,
    gives what one cleanup at the later reading gives; in particular the
    cleanup is idempotent. *)
Theorem cleanup_twice (st : State) (t1 t2 : Z) :
  t1 ≤ t2 → cleanup t2 (cleanup t1 st) = cleanup t2 st.
Proof.
  intros Ht.
  assert (rooms (cleanup t2 (cleanup t1 st)) = rooms (cleanup t2 st)) as Hr.
  { apply map_eq. intros r. rewrite !cleanup_lookup.
    destruct (rooms st !! r) as [x|]; [|done].
    destruct (decide (t1 > expiresAt x)).
    - rewrite decide_True by lia. done.
    - done. }
  unfold cleanup at 1 3. unfold set_rooms. f_equal.
  exact Hr.
Qed.

Lemma cleanup_twice_witness :
  cleanup 90000000 (cleanup 5000 Sample.drawn) = cleanup 90000000 Sample.drawn.
Proof. apply (cleanup_twice Sample.drawn 5000 90000000). lia. Defined.

(** ** More on the canvas mutation protocol *)

Lemma on_canvas_rooms (st : State) (s : string) f p (r : string) :
  rooms (on_canvas s f p st).1 !! r =
    if decide (bound_to st s = Some r)
    then (λ room, set_canvasState (f (canvasState room)) room) <$> rooms st !! r
    else rooms st !! r.
Proof.
  unfold on_canvas, bound_to.
  destruct (Js.truthy _) as [cur|]; [|by destruct (decide _)].
  destruct (decide (Some cur = Some r)) as [[= ->]|Hne].
  - destruct (rooms st !! r) as [room|] eqn:Hr; cbn [fst].
    + cbn [rooms set_rooms]. by rewrite lookup_insert_eq.
    + by rewrite Hr.
  - destruct (rooms st !! cur) as [room|]; cbn [fst]; [|done].
    cbn [rooms set_rooms]. rewrite lookup_insert_ne; [done|congruence].
Qed.

Lemma on_canvas_conns (st : State) (s : string) f p :
  conns (on_canvas s f p st).1 = conns st.
Proof.
  unfold on_canvas. destruct (Js.truthy _) as [cur|]; simpl; [|done].
  by destruct (rooms st !! cur).
Qed.

(** X10. A canvas message (object added, modified or removed, clear,
    theme change, cursor position) changes nothing but the canvas of the
    sender's room: no socket's closure changes, no room appears or
    disappears, every room keeps its users, password, createdAt,
    expiresAt, rejoinCounts and creatorId, and every room other than the
    one the sender is bound to stays as it was. *)
Theorem canvas_frame (st : State) (s : string) (ev : Event) :
  canvas_mutation ev = true →
  conns (handle s ev st).1 = conns st ∧
  (∀ r, rooms (handle s ev st).1 !! r = None ↔ rooms st !! r = None) ∧
  ∀ r room room',
    rooms st !! r = Some room →
    rooms (handle s ev st).1 !! r = Some room' →
    users room' = users room ∧ password room' = password room ∧
    createdAt room' = createdAt room ∧ expiresAt room' = expiresAt room ∧
    rejoinCounts room' = rejoinCounts room ∧
    creatorId room' = creatorId room ∧
    (bound_to st s ≠ Some r → room' = room).
Proof.
  intros Hev.
  assert (∀ f p,
    conns (on_canvas s f p st).1 = conns st ∧
    (∀ r, rooms (on_canvas s f p st).1 !! r = None ↔ rooms st !! r = None) ∧
    ∀ r room room',
      rooms st !! r = Some room →
      rooms (on_canvas s f p st).1 !! r = Some room' →
      users room' = users room ∧ password room' = password room ∧
      createdAt room' = createdAt room ∧ expiresAt room' = expiresAt room ∧
      rejoinCounts room' = rejoinCounts room ∧
      creatorId room' = creatorId room ∧
      (bound_to st s ≠ Some r → room' = room)) as Hcanvas.
  { intros f p. split; [apply on_canvas_conns|]. split.
    - intros r. rewrite on_canvas_rooms.
      destruct (decide _); [|done]. by rewrite fmap_None.
    - intros r room room' Hr. rewrite on_canvas_rooms, Hr.
      destruct (decide _); simpl; intros [= <-]; done. }
  destruct ev; try discriminate Hev; try apply Hcanvas.
  simpl. unfold on_cursor_position.
  destruct (Js.truthy _); simpl; (split; [done|]); (split; [done|]);
    intros r room room' Hr Hr'; rewrite Hr in Hr'; by injection Hr' as <-.
Qed.

Lemma canvas_frame_witness :
  conns (handle "s2" CanvasClear Sample.drawn).1 = conns Sample.drawn ∧
  (∀ r, rooms (handle "s2" CanvasClear Sample.drawn).1 !! r = None ↔
        rooms Sample.drawn !! r = None).
Proof.
  destruct (canvas_frame Sample.drawn "s2" CanvasClear) as (H1 & H2 & _).
  - reflexivity.
  - split; [exact H1|exact H2].
Defined.

(** X11. A socket still bound to a room that is no longer in the table
    (expired and swept, or deleted when its last user left) can go on
    sending canvas messages: each is broadcast to the sockets joined to
    that room id although nothing is stored, and the sender gets no
    error. *)
Theorem canvas_message_room_gone (st : State) (s cur : string) (ev : Event)
    (p : Payload) :
  bound_to st s = Some cur →
  rooms st !! cur = None →
  canvas_payload s ev = Some p →
  handle s ev st = (st, [ToOthers cur s p]).
Proof.
  intros Hb Hroom Hp.
  destruct ev; try discriminate Hp; injection Hp as <-; simpl;
    try (by apply on_canvas_no_room).
  unfold on_cursor_position. unfold bound_to in Hb. by rewrite Hb.
Qed.

Lemma canvas_message_room_gone_witness :
  handle "s1" (ObjectAdded Sample.square) Sample2.swept =
    (Sample2.swept, [ToOthers "K3X9Q2" "s1" (CanvasObjectAdded Sample.square)]).
Proof.
  apply (canvas_message_room_gone Sample2.swept "s1" "K3X9Q2"
           (ObjectAdded Sample.square)).
  - vm_compute. reflexivity.
  - vm_compute. reflexivity.
  - reflexivity.
Defined.

Lemma replace_first_split (o old : CanvasObject) (pre post : list CanvasObject) :
  (∀ o', o' ∈ pre → obj_id o' ≠ obj_id o) →
  obj_id old = obj_id o →
  replace_first o (pre ++ old :: post) = (pre ++ o :: post)%list.
Proof.
  intros Hpre Hold. induction pre as [|x pre IH]; simpl.
  - by rewrite decide_True.
  - rewrite decide_False by (apply Hpre; left).
    f_equal. apply IH. intros o' ?. apply Hpre. by right.
Qed.

(** X12. canvas:object:modified for an id that the room has replaces the
    first object of that id in place: the objects before it and after it,
    and so the length and the order of the list, stay as they were; theme
    and colour are untouched and the message is broadcast. *)
Theorem modified_in_place (st : State) (s cur : string) (room : Room)
    (o old : CanvasObject) (pre post : list CanvasObject) :
  bound_to st s = Some cur →
  rooms st !! cur = Some room →
  objects (canvasState room) = (pre ++ old :: post)%list →
  (∀ o', o' ∈ pre → obj_id o' ≠ obj_id o) →
  obj_id old = obj_id o →
  ∃ st' room',
    handle s (ObjectModified o) st =
      (st', [ToOthers cur s (CanvasObjectModified o)]) ∧
    rooms st' !! cur = Some room' ∧
    objects (canvasState room') = (pre ++ o :: post)%list ∧
    length (objects (canvasState room')) = length (objects (canvasState room)) ∧
    theme (canvasState room') = theme (canvasState room) ∧
    canvasColor (canvasState room') = canvasColor (canvasState room).
Proof.
  intros Hb Hroom Hobjs Hpre Hold. unfold handle, on_object_modified.
  rewrite (on_canvas_room _ _ _ _ _ _ Hb Hroom).
  eexists _, _. split; [reflexivity|].
  split; [apply lookup_insert_eq|].
  cbn [canvasState set_canvasState objects set_objects theme canvasColor].
  rewrite Hobjs, replace_first_split by done.
  split; [done|]. split; [|done].
  rewrite !length_app. done.
Qed.

Lemma modified_in_place_witness :
  ∃ st' room',
    handle "s2" (ObjectModified (mkCanvasObject "a1" "bigger circle"))
      Sample2.doubled =
      (st', [ToOthers "K3X9Q2" "s2"
               (CanvasObjectModified (mkCanvasObject "a1" "bigger circle"))]) ∧
    rooms st' !! "K3X9Q2" = Some room' ∧
    objects (canvasState room') =
      [mkCanvasObject "a1" "bigger circle"; mkCanvasObject "a1" "ellipse"].
Proof.
  destruct (modified_in_place Sample2.doubled "s2" "K3X9Q2"
              (mkRoom
                 [("s1", make_user "s1" Sample.ann);
                  ("s2", make_user "s2" Sample.bob)]
                 (mkCanvasState
                    [Sample.circle; mkCanvasObject "a1" "ellipse"]
                    "dark" "#1a1a1a")
                 Sample.pw 1000 86401000
                 (<["u-bob" := O]> ∅) "s1")
              (mkCanvasObject "a1" "bigger circle") Sample.circle
              [] [mkCanvasObject "a1" "ellipse"])
    as (st' & room' & H1 & H2 & H3 & _).
  - vm_compute. reflexivity.
  - vm_compute. reflexivity.
  - reflexivity.
  - intros o' Ho'. by apply elem_of_nil in Ho'.
  - reflexivity.
  - exists st', room'. split; [exact H1|]. split; [exact H2|exact H3].
Defined.

Lemma filter_id_absent (i : string) (os : list CanvasObject) :
  (∀ o, o ∈ os → obj_id o ≠ i) → filter (λ o, obj_id o ≠ i) os = os.
Proof.
  intros H. induction os as [|x os IH]; [done|].
  rewrite filter_cons_True by (apply H; left).
  f_equal. apply IH. intros o ?. apply H. by right.
Qed.

(** X13. canvas:object:removed for an id that no object of the room has
    leaves the state as it is and is broadcast all the same. *)
Theorem removed_unknown_id (st : State) (s cur objectId : string) :
  bound_to st s = Some cur →
  (∀ room o, rooms st !! cur = Some room →
     o ∈ objects (canvasState room) → obj_id o ≠ objectId) →
  handle s (ObjectRemoved objectId) st =
    (st, [ToOthers cur s (CanvasObjectRemoved objectId)]).
Proof.
  intros Hb Habsent. unfold handle, on_object_removed.
  apply on_canvas_fixed; [done|]. intros room Hroom. simpl.
  rewrite filter_id_absent by eauto. apply canvas_eta.
Qed.

Lemma removed_unknown_id_witness :
  handle "s1" (ObjectRemoved "zz") Sample.drawn =
    (Sample.drawn, [ToOthers "K3X9Q2" "s1" (CanvasObjectRemoved "zz")]).
Proof.
  apply (removed_unknown_id Sample.drawn "s1" "K3X9Q2" "zz").
  - vm_compute. reflexivity.
  - intros room o Hroom. vm_compute in Hroom. injection Hroom as <-.
    simpl. intros Ho. apply list_elem_of_singleton in Ho as ->.
    vm_compute. discriminate.
Defined.

(** X14. Removing an id twice is removing it once: the second
    canvas:object:removed leaves the state the first one produced, whoever
    sends it and whether or not the sender is bound. *)
Theorem removed_twice (st : State) (s : string) (objectId : string) :
  (handle s (ObjectRemoved objectId) (handle s (ObjectRemoved objectId) st).1).1
  = (handle s (ObjectRemoved objectId) st).1.
Proof.
  unfold handle, on_object_removed.
  destruct (bound_to st s) as [cur|] eqn:Hb.
  - destruct (rooms st !! cur) as [room|] eqn:Hroom.
    + rewrite (on_canvas_room _ _ _ _ _ _ Hb Hroom). cbn [fst].
      erewrite on_canvas_room; [|exact Hb|apply lookup_insert_eq].
      cbn [fst]. unfold set_rooms. cbn [rooms conns]. f_equal.
      rewrite insert_insert_eq. f_equal.
      unfold set_canvasState, set_objects. cbn. f_equal. f_equal.
      induction (objects (canvasState room)) as [|x os IH]; [done|].
      destruct (decide (obj_id x ≠ objectId)).
      * rewrite !filter_cons_True by done. by rewrite IH.
      * by rewrite filter_cons_False by done.
    + rewrite (on_canvas_no_room _ _ _ _ _ Hb Hroom). cbn [fst].
      by rewrite (on_canvas_no_room _ _ _ _ _ Hb Hroom).
  - rewrite (on_canvas_unbound _ _ _ _ Hb). cbn [fst].
    by rewrite (on_canvas_unbound _ _ _ _ Hb).
Qed.

(** X15. Last write wins: when an object with a new id is added and an
    object with the same id is then sent as modified, by the same or
    another socket of the room, the room's list is the list before with
    the modified object at its end. *)
Theorem added_then_modified (st : State) (s1 s2 cur : string) (room : Room)
    (o o' : CanvasObject) :
  bound_to st s1 = Some cur →
  bound_to st s2 = Some cur →
  rooms st !! cur = Some room →
  (∀ x, x ∈ objects (canvasState room) → obj_id x ≠ obj_id o) →
  obj_id o' = obj_id o →
  ∃ room',
    rooms (run [Msg s1 (ObjectAdded o); Msg s2 (ObjectModified o')] st) !! cur
      = Some room' ∧
    objects (canvasState room') = (objects (canvasState room) ++ [o'])%list.
Proof.
  intros Hb1 Hb2 Hroom Hfresh Hid. simpl.
  unfold on_object_added, on_object_modified.
  rewrite (on_canvas_room _ _ _ _ _ _ Hb1 Hroom). cbn [fst].
  erewrite on_canvas_room; [|exact Hb2|apply lookup_insert_eq].
  cbn [fst rooms set_rooms]. rewrite lookup_insert_eq.
  eexists. split; [done|].
  cbn [canvasState set_canvasState objects set_objects].
  apply replace_first_split; [|done].
  intros x Hx. rewrite Hid. by apply Hfresh.
Qed.

Lemma added_then_modified_witness :
  ∃ room',
    rooms (run [Msg "s1" (ObjectAdded Sample.square);
                Msg "s2" (ObjectModified (mkCanvasObject "b2" "rounded rect"))]
             Sample.drawn) !! "K3X9Q2" = Some room' ∧
    objects (canvasState room') =
      [Sample.circle; mkCanvasObject "b2" "rounded rect"].
Proof.
  apply (added_then_modified Sample.drawn "s1" "s2" "K3X9Q2"
           (mkRoom
              [("s1", make_user "s1" Sample.ann);
               ("s2", make_user "s2" Sample.bob)]
              (mkCanvasState [Sample.circle] "dark" "#1a1a1a")
              Sample.pw 1000 86401000
              (<["u-bob" := O]> ∅) "s1")
           Sample.square (mkCanvasObject "b2" "rounded rect")).
  - vm_compute. reflexivity.
  - vm_compute. reflexivity.
  - vm_compute. reflexivity.
  - simpl. intros x Hx. apply list_elem_of_singleton in Hx as ->.
    vm_compute. discriminate.
  - reflexivity.
Defined.

(** X16. theme-change sets the theme and, only when a non-empty color
    comes with it, the canvas colour; without a color, or with the empty
    string, the colour stays. The objects are not touched and the payload
    is broadcast as it came. *)
Theorem theme_change_color (st : State) (s cur th : string)
    (color : option string) (room : Room) :
  bound_to st s = Some cur →
  rooms st !! cur = Some room →
  ∃ st' room',
    handle s (ThemeChange th color) st =
      (st', [ToOthers cur s (ThemeChanged th color)]) ∧
    rooms st' !! cur = Some room' ∧
    theme (canvasState room') = th ∧
    canvasColor (canvasState room') =
      match color with
      | Some c => if decide (c = "") then canvasColor (canvasState room) else c
      | None => canvasColor (canvasState room)
      end ∧
    objects (canvasState room') = objects (canvasState room).
Proof.
  intros Hb Hroom. unfold handle, on_theme_change.
  rewrite (on_canvas_room _ _ _ _ _ _ Hb Hroom).
  eexists _, _. split; [reflexivity|].
  split; [apply lookup_insert_eq|].
  cbn [canvasState set_canvasState objects theme canvasColor].
  split; [done|]. split; [|done].
  destruct color as [c|]; [|done]. simpl. by destruct (decide (c = "")).
Qed.

Lemma theme_change_color_witness :
  ∃ st' room',
    handle "s1" (ThemeChange "light" (Some "")) Sample.drawn =
      (st', [ToOthers "K3X9Q2" "s1" (ThemeChanged "light" (Some ""))]) ∧
    rooms st' !! "K3X9Q2" = Some room' ∧
    theme (canvasState room') = "light" ∧
    canvasColor (canvasState room') = "#1a1a1a" ∧
    objects (canvasState room') = [Sample.circle].
Proof.
  apply (theme_change_color Sample.drawn "s1" "K3X9Q2" "light" (Some "")
           (mkRoom
              [("s1", make_user "s1" Sample.ann);
               ("s2", make_user "s2" Sample.bob)]
              (mkCanvasState [Sample.circle] "dark" "#1a1a1a")
              Sample.pw 1000 86401000
              (<["u-bob" := O]> ∅) "s1")).
  - vm_compute. reflexivity.
  - vm_compute. reflexivity.
Defined.

(** X17. The clear and the theme change commute: a canvas:clear and a
    theme-change, from any two sockets, lead to the same state in either
    order. *)
Theorem clear_theme_commute (st : State) (s1 s2 th : string)
    (color : option string) :
  run [Msg s1 CanvasClear; Msg s2 (ThemeChange th color)] st =
  run [Msg s2 (ThemeChange th color); Msg s1 CanvasClear] st.
Proof.
  simpl. unfold on_canvas_clear, on_theme_change.
  set (f := λ cs : CanvasState, set_objects [] cs).
  set (g := λ cs : CanvasState,
         {| objects := objects cs; theme := th;
            canvasColor := default (canvasColor cs) (Js.truthy color) |}).
  assert (∀ (a b : State),
            rooms a = rooms b → conns a = conns b → a = b) as Hext.
  { intros [??] [??]. simpl. by intros -> ->. }
  apply Hext; [|by rewrite !on_canvas_conns].
  apply map_eq. intros r.
  rewrite !on_canvas_rooms.
  assert (∀ s f p, bound_to (on_canvas s1 f p st).1 s = bound_to st s) as H1.
  { intros. unfold bound_to, conn_of. by rewrite on_canvas_conns. }
  assert (∀ s f p, bound_to (on_canvas s2 f p st).1 s = bound_to st s) as H2.
  { intros. unfold bound_to, conn_of. by rewrite on_canvas_conns. }
  rewrite H1, H2.
  destruct (decide (bound_to st s2 = Some r));
    destruct (decide (bound_to st s1 = Some r));
    destruct (rooms st !! r) as [room|]; done.
Qed.

(** ** More on leaving and disconnecting *)

(** X18. After leave-room a bound socket is unbound: its closure
    variables are null, it has left the broadcast group, it is no user of
    the room it left (if the room is still there), its canvas messages are
    ignored and a second leave-room does nothing. *)
Theorem leave_room_unbinds (st : State) (s cur : string) :
  bound_to st s = Some cur →
  ∃ st',
    (handle s LeaveRoom st).1 = st' ∧
    currentRoom (conn_of st' s) = None ∧
    currentUser (conn_of st' s) = None ∧
    (cur ∉ joined (conn_of st' s)) ∧
    (∀ room', rooms st' !! cur = Some room' → ¬ is_member s room') ∧
    (∀ ev, canvas_mutation ev = true → handle s ev st' = (st', [])) ∧
    handle s LeaveRoom st' = (st', []).
Proof.
  intros Hb.
  assert (conn_of (handle s LeaveRoom st).1 s =
            {| currentRoom := None; currentUser := None;
               joined := joined (conn_of st s) ∖ {[cur]} |}) as Hconn.
  { unfold handle, on_leave_room. unfold bound_to in Hb. rewrite Hb.
    destruct (rooms st !! cur); cbn [fst]; by rewrite conn_of_set_conn_eq. }
  assert (∀ room', rooms (handle s LeaveRoom st).1 !! cur = Some room' →
                   ¬ is_member s room') as Hgone.
  { intros room'. unfold handle, on_leave_room.
    pose proof Hb as Hb'. unfold bound_to in Hb'. rewrite Hb'.
    destruct (rooms st !! cur) as [room|] eqn:Hroom; cbn [fst].
    - cbn [rooms set_conn set_rooms]. destruct (decide _).
      + by rewrite lookup_delete_eq.
      + rewrite lookup_insert_eq. intros [= <-]. unfold is_member.
        cbn [users set_users]. rewrite get_delete_eq. by intros [].
    - cbn [rooms set_conn]. by rewrite Hroom. }
  set (st' := (handle s LeaveRoom st).1) in *.
  assert (Js.truthy (currentRoom (conn_of st' s)) = None) as Hunb
    by (by rewrite Hconn).
  exists st'. split; [reflexivity|].
  rewrite Hconn. split; [done|]. split; [done|].
  split; [cbn [joined]; rewrite elem_of_difference, elem_of_singleton; tauto|].
  split; [exact Hgone|]. split.
  - intros ev Hev.
    destruct ev; try discriminate Hev;
      try (by apply on_canvas_unbound).
    unfold handle, on_cursor_position. by rewrite Hunb.
  - unfold handle, on_leave_room. by rewrite Hunb.
Qed.

Lemma leave_room_unbinds_witness :
  ∃ st',
    (handle "s2" LeaveRoom Sample.drawn).1 = st' ∧
    currentRoom (conn_of st' "s2") = None ∧
    handle "s2" (ObjectAdded Sample.square) st' = (st', []).
Proof.
  destruct (leave_room_unbinds Sample.drawn "s2" "K3X9Q2")
    as (st' & H1 & H2 & _ & _ & _ & H3 & _).
  - vm_compute. reflexivity.
  - exists st'. split; [exact H1|]. split; [exact H2|].
    apply H3. reflexivity.
Defined.

(** X19. A room whose last user disconnected can be joined again with its
    canvas: a join-room with the room's password, before expiresAt and
    under a key counted less than 3, is answered with room-joined carrying
    the canvas state the room had and the joiner as the only user. Had the
    last user sent leave-room instead, the same join-room is answered
    "Room not found or expired". *)
Theorem disconnect_then_rejoin (st : State) (s s2 cur : string) (room : Room)
    (userData : UserData) (now : Z) :
  bound_to st s = Some cur →
  rooms st !! cur = Some room →
  Js.delete s (users room) = [] →
  now ≤ expiresAt room →
  (default O (rejoinCounts room !! userIdToTrack s2 userData) < 3)%nat →
  (∃ st2 count,
     handle s2 (JoinRoom cur (password room) userData now)
       (handle s Disconnect st).1 =
       (st2,
        [ToSender s2
           (RoomJoined cur (make_user s2 userData) (canvasState room)
              [make_user s2 userData] count);
         ToOthers cur s2 (UserJoined (make_user s2 userData))])) ∧
  handle s2 (JoinRoom cur (password room) userData now)
    (handle s LeaveRoom st).1 =
    ((handle s LeaveRoom st).1,
     [ToSender s2 (Error "Room not found or expired")]).
Proof.
  intros Hb Hroom Hus Hnow Hcount. split.
  - unfold handle at 2. rewrite (on_disconnect_bound _ _ _ _ Hb Hroom), Hus.
    cbn [fst]. unfold handle, on_join_room.
    cbn [rooms set_conn set_rooms]. rewrite lookup_insert_eq.
    cbn [expiresAt password rejoinCounts users canvasState set_users].
    rewrite (decide_False (P := now > _)) by lia.
    rewrite (decide_False (P := _ ≠ _)) by (intros ?; done).
    rewrite (decide_False (P := (3 ≤ _)%nat)) by lia.
    eexists _, _. reflexivity.
  - unfold handle at 2 3. rewrite (on_leave_room_bound _ _ _ _ Hb Hroom), Hus.
    cbn [fst]. rewrite decide_True by done.
    unfold handle, on_join_room. cbn [rooms set_conn set_rooms].
    by rewrite lookup_delete_eq.
Qed.

Lemma disconnect_then_rejoin_witness :
  (∃ st2 count,
     handle "s7" (JoinRoom "K3X9Q2" Sample.pw Sample.bob 5000)
       (handle "s1" Disconnect Sample.created).1 =
       (st2,
        [ToSender "s7"
           (RoomJoined "K3X9Q2" (make_user "s7" Sample.bob) initial_canvas
              [make_user "s7" Sample.bob] count);
         ToOthers "K3X9Q2" "s7" (UserJoined (make_user "s7" Sample.bob))])) ∧
  handle "s7" (JoinRoom "K3X9Q2" Sample.pw Sample.bob 5000)
    (handle "s1" LeaveRoom Sample.created).1 =
    ((handle "s1" LeaveRoom Sample.created).1,
     [ToSender "s7" (Error "Room not found or expired")]).
Proof.
  apply (disconnect_then_rejoin Sample.created "s1" "s7" "K3X9Q2"
           (mkRoom [("s1", make_user "s1" Sample.ann)] initial_canvas
              Sample.pw 1000 86401000 ∅ "s1") Sample.bob 5000).
  - vm_compute. reflexivity.
  - vm_compute. reflexivity.
  - vm_compute. reflexivity.
  - vm_compute. discriminate.
  - vm_compute. lia.
Defined.

(** ** More on creating a room *)

(** X20. create-room does not look whether its generated id is taken: a
    room already filed under that id is replaced by the new one, with the
    creator as only user, an empty canvas, no rejoin counts and the new
    password. A socket that was bound to the replaced room stays bound to
    the id: it is no user of the new room, yet the objects it adds land
    in the new room's canvas. *)
Theorem create_room_overwrites (st : State) (s c : string) (userData : UserData)
    (rnd36 : string) (pick : nat → nat) (now1 now2 : Z) (old : Room)
    (o : CanvasObject) :
  rooms st !! generateRoomId rnd36 = Some old →
  c ≠ s →
  bound_to st c = Some (generateRoomId rnd36) →
  ∃ st1 room1 room2,
    (handle s (CreateRoom userData rnd36 pick now1 now2) st).1 = st1 ∧
    rooms st1 !! generateRoomId rnd36 = Some room1 ∧
    Js.keys (users room1) = [s] ∧
    objects (canvasState room1) = [] ∧
    rejoinCounts room1 = ∅ ∧
    password room1 = generateRoomPassword pick ∧
    ¬ is_member c room1 ∧
    bound_to st1 c = Some (generateRoomId rnd36) ∧
    rooms (handle c (ObjectAdded o) st1).1 !! generateRoomId rnd36 = Some room2 ∧
    objects (canvasState room2) = [o] ∧
    users room2 = users room1.
Proof.
  intros Hold Hne Hb.
  eexists _, _, _. split; [reflexivity|].
  assert (bound_to (handle s (CreateRoom userData rnd36 pick now1 now2) st).1 c
          = Some (generateRoomId rnd36)) as Hb1.
  { unfold bound_to. simpl.
    rewrite conn_of_set_rooms, conn_of_set_conn_ne by done. exact Hb. }
  split; [apply lookup_insert_eq|]. split; [done|]. split; [done|].
  split; [done|]. split; [done|]. split.
  { unfold is_member. simpl. rewrite decide_False by done. by intros []. }
  split; [exact Hb1|].
  unfold handle at 1. unfold on_object_added.
  erewrite on_canvas_room; [|exact Hb1|apply lookup_insert_eq].
  cbn [fst rooms set_rooms]. rewrite lookup_insert_eq. done.
Qed.

Lemma create_room_overwrites_witness :
  ∃ st1 room1 room2,
    (handle "s8" (CreateRoom Sample.bob "0.k3x9q2aaaa" Sample.picks 7000 7000)
       Sample.drawn).1 = st1 ∧
    rooms st1 !! "K3X9Q2" = Some room1 ∧
    Js.keys (users room1) = ["s8"] ∧
    objects (canvasState room1) = [] ∧
    ¬ is_member "s1" room1 ∧
    rooms (handle "s1" (ObjectAdded Sample.square) st1).1 !! "K3X9Q2"
      = Some room2 ∧
    objects (canvasState room2) = [Sample.square].
Proof.
  destruct (create_room_overwrites Sample.drawn "s8" "s1" Sample.bob
              "0.k3x9q2aaaa" Sample.picks 7000 7000
              (mkRoom
                 [("s1", make_user "s1" Sample.ann);
                  ("s2", make_user "s2" Sample.bob)]
                 (mkCanvasState [Sample.circle] "dark" "#1a1a1a")
                 Sample.pw 1000 86401000
                 (<["u-bob" := O]> ∅) "s1")
              Sample.square)
    as (st1 & room1 & room2 & H1 & H2 & H3 & H4 & _ & _ & H5 & _ & H6 & H7 & _).
  - vm_compute. reflexivity.
  - discriminate.
  - vm_compute. reflexivity.
  - exists st1, room1, room2.
    split; [exact H1|]. split; [exact H2|]. split; [exact H3|].
    split; [exact H4|]. split; [exact H5|]. split; [exact H6|exact H7].
Defined.

(** ** Identifiers and passwords *)

Lemma get_chars (i : nat) :
  (i < 36)%nat → ∃ c, String.get i chars = Some c ∧ upper_or_digit c = true.
Proof.
  intros Hi.
  do 36 (destruct i as [|i]; [by eexists; vm_compute|]). lia.
Qed.

(** X21. The password is made of the six characters drawn, in the order
    drawn: its [i]-th character is [chars[pick i]]. It has exactly six
    characters, each of [A-Z0-9]; every index drawn being below
    [chars.length] = 36. *)
Theorem generateRoomPassword_chars (pick : nat → nat) :
  (∀ i, (i < 6)%nat → (pick i < 36)%nat) →
  String.length (generateRoomPassword pick) = 6%nat ∧
  string_forallb upper_or_digit (generateRoomPassword pick) = true ∧
  ∀ i, (i < 6)%nat →
    String.get i (generateRoomPassword pick) = String.get (pick i) chars.
Proof.
  intros Hpick.
  destruct (get_chars (pick 0%nat)) as (c0 & H0 & U0); [apply Hpick; lia|].
  destruct (get_chars (pick 1%nat)) as (c1 & H1 & U1); [apply Hpick; lia|].
  destruct (get_chars (pick 2%nat)) as (c2 & H2 & U2); [apply Hpick; lia|].
  destruct (get_chars (pick 3%nat)) as (c3 & H3 & U3); [apply Hpick; lia|].
  destruct (get_chars (pick 4%nat)) as (c4 & H4 & U4); [apply Hpick; lia|].
  destruct (get_chars (pick 5%nat)) as (c5 & H5 & U5); [apply Hpick; lia|].
  assert (generateRoomPassword pick =
            String c0 (String c1 (String c2 (String c3 (String c4
              (String c5 EmptyString)))))) as Hpw.
  { unfold generateRoomPassword. cbn [password_loop]. unfold Js.charAt.
    by rewrite H0, H1, H2, H3, H4, H5. }
  rewrite Hpw. split; [done|]. split.
  - cbn [string_forallb]. by rewrite U0, U1, U2, U3, U4, U5.
  - intros i Hi. do 6 (destruct i as [|i]; [by cbn|]). lia.
Qed.

Lemma generateRoomPassword_chars_witness :
  String.length (generateRoomPassword Sample.picks) = 6%nat ∧
  string_forallb upper_or_digit (generateRoomPassword Sample.picks) = true ∧
  ∀ i, (i < 6)%nat →
    String.get i (generateRoomPassword Sample.picks) =
      String.get (Sample.picks i) chars.
Proof.
  apply (generateRoomPassword_chars Sample.picks).
  intros i Hi. unfold Sample.picks. lia.
Defined.

Lemma upper_ascii_not_lower (c : ascii) :
  lower_ascii (Js.upper_ascii c) = false.
Proof.
  destruct c as [[] [] [] [] [] [] [] []]; reflexivity.
Qed.

(** X22. A room id has as many characters as follow the first two of
    [Math.random().toString(36)], six at most: it has six exactly when
    that string has eight or more. It holds no lower-case letter. *)
Theorem generateRoomId_shape (rnd36 : string) :
  String.length (generateRoomId rnd36) = (6 `min` (String.length rnd36 - 2))%nat ∧
  (String.length (generateRoomId rnd36) = 6%nat ↔ (8 ≤ String.length rnd36)%nat) ∧
  string_forallb (λ c, negb (lower_ascii c)) (generateRoomId rnd36) = true.
Proof.
  split; [apply generateRoomId_length|]. split.
  - rewrite generateRoomId_length. lia.
  - unfold generateRoomId.
    induction (Js.substring 2 8 rnd36) as [|c s IH]; simpl; [done|].
    by rewrite upper_ascii_not_lower, IH.
Qed.

Lemma id_digit_hex (c : ascii) (r : nat) :
  (r < 16)%nat →
  ∃ d, Utils.id_digit c r = String d EmptyString ∧
       Utils.hex_ascii d = true ∧
       (Ascii.eqb c "x" = false → Utils.variant_ascii d = true).
Proof.
  intros Hr. unfold Utils.id_digit.
  destruct (Ascii.eqb c "x");
    do 16 (destruct r as [|r]; [by eexists; vm_compute|]); lia.
Qed.

Lemma replace_xy_follows (draw : nat → nat) (template : string) (k : nat) :
  (∀ j, (k ≤ j < k + Utils.draws_of template)%nat → (draw j < 16)%nat) →
  Utils.follows template (Utils.replace_xy draw k template) = true ∧
  String.length (Utils.replace_xy draw k template) = String.length template.
Proof.
  revert k. induction template as [|c rest IH]; intros k Hdraw; [done|].
  cbn [Utils.replace_xy Utils.draws_of] in *.
  destruct (Ascii.eqb c "x" || Ascii.eqb c "y") eqn:Hc.
  - destruct (id_digit_hex c (draw k)) as (d & -> & Hhex & Hvar);
      [apply Hdraw; lia|].
    destruct (IH (S k)) as [IH1 IH2]; [intros j ?; apply Hdraw; lia|].
    change (String d EmptyString +:+ ?x) with (String d x).
    cbn [Utils.follows String.length].
    rewrite IH1, IH2. split; [|done].
    destruct (Ascii.eqb c "x") eqn:Hx; [by rewrite Hhex|].
    simpl in Hc. rewrite Hc, Hvar; done.
  - destruct (IH k) as [IH1 IH2]; [intros j ?; apply Hdraw; lia|].
    cbn [Utils.follows String.length]. rewrite IH1, IH2.
    apply orb_false_iff in Hc as [-> ->].
    by rewrite Ascii.eqb_refl.
Qed.

(** X23. generateId returns a string of 36 characters that follows its
    template: hexadecimal digits in lower case, hyphens at the positions
    8, 13, 18 and 23, the digit 4 at position 14 and one of 8, 9, a, b at
    position 19; each of the 31 draws [Math.random() * 16 | 0] being
    below 16. *)
Theorem generateId_shape (draw : nat → nat) :
  (∀ k, (k < 31)%nat → (draw k < 16)%nat) →
  String.length (Utils.generateId draw) = 36%nat ∧
  Utils.follows "xxxxxxxx-xxxx-4xxx-yxxx-xxxxxxxxxxxx" (Utils.generateId draw)
    = true.
Proof.
  intros Hdraw.
  destruct (replace_xy_follows draw Utils.id_template 0) as [H1 H2].
  - intros j Hj. apply Hdraw. vm_compute in Hj. lia.
  - split; [exact H2|exact H1].
Qed.

Lemma generateId_shape_witness :
  String.length (Utils.generateId (λ k, (k * 7 mod 16)%nat)) = 36%nat ∧
  Utils.follows "xxxxxxxx-xxxx-4xxx-yxxx-xxxxxxxxxxxx"
    (Utils.generateId (λ k, (k * 7 mod 16)%nat)) = true.
Proof.
  apply (generateId_shape (λ k, (k * 7 mod 16)%nat)).
  intros k _. apply Nat.mod_upper_bound. discriminate.
Defined.


(** ** The client's socket manager against the server *)

(** X24. The client never sends a userId, so the join-room that its
    joinRoom emits is counted under the socket id: a socket whose id the
    room has not counted yet is let in with count 0, whatever the counts
    of the room's other keys, provided the password is right and
    expiresAt has not passed. The user entered has the socket id as its
    id, and the name "User" when no name or an empty name was given. *)
Theorem client_join_counted_by_socket (st : State) (s r : string)
    (username : option string) (client_now now : Z) (room : Room) :
  rooms st !! r = Some room →
  now ≤ expiresAt room →
  rejoinCounts room !! s = None →
  ∃ st' user cs members room',
    handle s
      (JoinRoom r (password room)
         (Client.joinRoom_userData username client_now) now) st =
      (st',
       [ToSender s (RoomJoined r user cs members (Some O));
        ToOthers r s (UserJoined user)]) ∧
    user_id user = s ∧
    user_name user =
      Some (match username with
            | Some n => if decide (n = "") then "User" else n
            | None => "User"
            end) ∧
    rooms st' !! r = Some room' ∧
    rejoinCounts room' !! s = Some O ∧
    ∀ k, k ≠ s → rejoinCounts room' !! k = rejoinCounts room !! k.
Proof.
  intros Hroom Hnow Hcount. unfold handle, on_join_room.
  rewrite Hroom.
  rewrite (decide_False (P := now > _)) by lia.
  rewrite (decide_False (P := _ ≠ _)) by (intros ?; done).
  change (userIdToTrack s (Client.joinRoom_userData username client_now))
    with s.
  rewrite Hcount. cbn [default].
  rewrite (decide_False (P := (3 ≤ 0)%nat)) by lia.
  rewrite (decide_False (P := _ ∨ _)) by (intros [?|[? ?]]; [lia|done]).
  eexists _, _, _, _, _. split.
  { cbn [rejoinCounts set_rejoinCounts]. rewrite lookup_insert_eq.
    reflexivity. }
  split; [done|]. split.
  { cbn. destruct username as [n|]; [|done]. simpl.
    by destruct (decide (n = "")). }
  split; [apply lookup_insert_eq|].
  cbn [rejoinCounts set_rejoinCounts].
  split; [apply lookup_insert_eq|].
  intros k Hk. by rewrite lookup_insert_ne.
Qed.

Lemma client_join_counted_by_socket_witness :
  ∃ st' user cs members room',
    handle "s6"
      (JoinRoom "K3X9Q2" Sample.pw
         (Client.joinRoom_userData (Some "") 5500) 6000) Sample.rejoined =
      (st',
       [ToSender "s6" (RoomJoined "K3X9Q2" user cs members (Some O));
        ToOthers "K3X9Q2" "s6" (UserJoined user)]) ∧
    user_id user = "s6" ∧
    user_name user = Some "User" ∧
    rooms st' !! "K3X9Q2" = Some room' ∧
    rejoinCounts room' !! "s6" = Some O ∧
    rejoinCounts room' !! "u-bob" = Some 3%nat.
Proof.
  destruct (client_join_counted_by_socket Sample.rejoined "s6" "K3X9Q2"
              (Some "") 5500 6000
              (mkRoom [("s1", make_user "s1" Sample.ann)] initial_canvas
                 Sample.pw 1000 86401000 (<["u-bob" := 3%nat]> ∅) "s1"))
    as (st' & user & cs & members & room' & H1 & H2 & H3 & H4 & H5 & H6).
  - vm_compute. reflexivity.
  - vm_compute. discriminate.
  - vm_compute. reflexivity.
  - exists st', user, cs, members, room'.
    split; [exact H1|]. split; [exact H2|]. split; [exact H3|].
    split; [exact H4|]. split; [exact H5|].
    rewrite H6 by discriminate. vm_compute. reflexivity.
Defined.

(** X25. After a joinRoom of the client and the server's answer, the
    client's currentRoom is the room it asked for in either case, so that
    its next leaveRoom emits leave-room. When
    the server accepted, the server has bound the socket to that room,
    the socket is a user of it and client and server hold the same user.
    When the server refused, no closure of the server has changed and the
    client keeps the user it had, but it has the refused room as its
    currentRoom. *)
Theorem join_round_outcome (s r : string) (username : option string)
    (pw : string) (client_now now : Z) (cl : Client.ClientState) (st : State) :
  ∃ cl' st',
    Client.join_round s r username pw client_now now cl st = (cl', st') ∧
    Client.cl_currentRoom cl' = Some r ∧
    (r ≠ "" → (Client.leaveRoom cl').2 = true) ∧
    ((currentRoom (conn_of st' s) = Some r ∧
      Client.cl_currentUser cl' = currentUser (conn_of st' s) ∧
      ∃ room', rooms st' !! r = Some room' ∧ is_member s room')
     ∨
     (conns st' = conns st ∧
      Client.cl_currentUser cl' = Client.cl_currentUser cl ∧
      ∀ room', rooms st' !! r = Some room' → rooms st !! r = Some room')).
Proof.
  unfold Client.join_round, handle, on_join_room.
  destruct (rooms st !! r) as [room|] eqn:Hroom.
  - destruct (decide (now > expiresAt room)).
    + eexists _, _. split; [reflexivity|].
      cbn. rewrite decide_True by done. cbn.
      split; [done|]. split; [by intros ?; unfold Client.leaveRoom; cbn; rewrite decide_False|]. right. split; [reflexivity|]. split; [reflexivity|].
      intros room'. by rewrite lookup_delete_eq.
    + destruct (decide (password room ≠ pw)).
      * eexists _, _. split; [reflexivity|].
        cbn. rewrite decide_True by done. cbn.
        split; [done|]. split; [by intros ?; unfold Client.leaveRoom; cbn; rewrite decide_False|]. right. split; [done|]. split; [done|].
        intros room'. by rewrite Hroom.
      * destruct (decide (3 ≤ _)%nat).
        -- eexists _, _. split; [reflexivity|].
           cbn. rewrite decide_True by done. cbn.
           split; [done|]. split; [by intros ?; unfold Client.leaveRoom; cbn; rewrite decide_False|]. right. split; [done|]. split; [done|].
           intros room'. by rewrite Hroom.
        -- eexists _, _. split; [reflexivity|].
           cbn [Client.to_sender omap list_omap]. rewrite decide_True by done.
           cbn [foldl Client.receive Client.cl_currentRoom
                  Client.cl_currentUser list_omap].
           split; [done|]. split; [by intros ?; unfold Client.leaveRoom; cbn; rewrite decide_False|]. left.
           rewrite conn_of_set_rooms, conn_of_set_conn_eq.
           split; [done|]. split; [done|].
           eexists. split; [apply lookup_insert_eq|].
           unfold is_member. cbn [users set_rejoinCounts set_users].
           rewrite get_set, decide_True by done. eauto.
  - eexists _, _. split; [reflexivity|].
    cbn. rewrite decide_True by done. cbn.
    split; [done|]. split; [by intros ?; unfold Client.leaveRoom; cbn; rewrite decide_False|]. right. split; [done|]. split; [done|].
    intros room'. by rewrite Hroom.
Qed.

(** X26. With the client's createRoom the creator is entered under the
    socket id with the name given, or "User" when none or an empty one
    was given, and with a colour of the palette, the index drawn being
    below the palette's length. *)
Theorem client_create_user (st : State) (s : string) (username : option string)
    (i : nat) (rnd36 : string) (pick : nat → nat) (now1 now2 : Z) :
  (i < 10)%nat →
  ∃ st' roomId pw user color,
    handle s
      (CreateRoom (Client.createRoom_userData username i) rnd36 pick now1 now2)
      st = (st', [ToSender s (RoomCreated roomId pw user)]) ∧
    user_id user = s ∧
    user_name user =
      Some (match username with
            | Some n => if decide (n = "") then "User" else n
            | None => "User"
            end) ∧
    user_color user = Some color ∧ color ∈ Utils.colors ∧
    String.length color = 7%nat ∧
    (users <$> rooms st' !! roomId) = Some [(s, user)] ∧
    Client.receive (Client.mkClient None None) (RoomCreated roomId pw user) =
      Client.mkClient (currentRoom (conn_of st' s)) (currentUser (conn_of st' s)).
Proof.
  intros Hi. unfold handle, on_create_room.
  assert (∃ color, Utils.getRandomColor i = Some color ∧
                   color ∈ Utils.colors ∧ String.length color = 7%nat)
    as (color & Hcol & Hin & Hlen).
  { unfold Utils.getRandomColor.
    do 10 (destruct i as [|i];
           [eexists; split; [reflexivity|];
            split; [|reflexivity];
            apply list_elem_of_In; simpl; tauto|]).
    lia. }
  eexists _, _, _, _, color. split; [reflexivity|].
  split; [done|]. split.
  { cbn. destruct username as [n|]; [|done]. simpl.
    by destruct (decide (n = "")). }
  split; [exact Hcol|]. split; [exact Hin|]. split; [exact Hlen|].
  split.
  { cbn [rooms set_rooms]. by rewrite lookup_insert_eq. }
  by rewrite conn_of_set_rooms, conn_of_set_conn_eq.
Qed.

Lemma client_create_user_witness :
  ∃ st' roomId pw user color,
    handle "s1"
      (CreateRoom (Client.createRoom_userData None 3) "0.k3x9q2mzr1p"
         Sample.picks 1000 1000) initial =
      (st', [ToSender "s1" (RoomCreated roomId pw user)]) ∧
    user_id user = "s1" ∧
    user_name user = Some "User" ∧
    user_color user = Some color ∧ color ∈ Utils.colors.
Proof.
  destruct (client_create_user initial "s1" None 3 "0.k3x9q2mzr1p"
              Sample.picks 1000 1000)
    as (st' & roomId & pw & user & color & H1 & H2 & H3 & H4 & H5 & _).
  - lia.
  - exists st', roomId, pw, user, color.
    split; [exact H1|]. split; [exact H2|]. split; [exact H3|].
    split; [exact H4|exact H5].
Defined.

(** * The undo history *)

Lemma last_removelast {A : Type} (l : list A) (x : A) :
  last l = Some x → l = (removelast l ++ [x])%list.
Proof.
  intros [l' ->]%last_Some. by rewrite removelast_last.
Qed.

Lemma length_tail {A : Type} (l : list A) :
  length (tail l) = pred (length l).
Proof. by destruct l. Qed.

Lemma canUndo_top (h : History.State) :
  History.canUndo h = true → ∃ a, last (History.undoStack h) = Some a.
Proof.
  unfold History.canUndo. intros Hc%bool_decide_eq_true.
  destruct (History.undoStack h) as [|x l] eqn:Hl using rev_ind;
    [simpl in Hc; lia|].
  exists x. by rewrite last_snoc.
Qed.

Lemma canRedo_top (h : History.State) :
  History.canRedo h = true → ∃ a, last (History.redoStack h) = Some a.
Proof.
  unfold History.canRedo. intros Hc%bool_decide_eq_true.
  destruct (History.redoStack h) as [|x l] eqn:Hl using rev_ind;
    [simpl in Hc; lia|].
  exists x. by rewrite last_snoc.
Qed.

Lemma undo_lengths (h : History.State) :
  (length (History.undoStack (History.undo h).1)
   + length (History.redoStack (History.undo h).1)
   = length (History.undoStack h) + length (History.redoStack h))%nat.
Proof.
  unfold History.undo. destruct (History.canUndo h); [|done].
  destruct (last (History.undoStack h)) as [a|] eqn:Ha; [|done].
  cbn [fst History.undoStack History.redoStack].
  rewrite (last_removelast _ _ Ha) at 2. rewrite !length_app. simpl. lia.
Qed.

Lemma redo_lengths (h : History.State) :
  (length (History.undoStack (History.redo h).1)
   + length (History.redoStack (History.redo h).1)
   = length (History.undoStack h) + length (History.redoStack h))%nat.
Proof.
  unfold History.redo. destruct (History.canRedo h); [|done].
  destruct (last (History.redoStack h)) as [a|] eqn:Ha; [|done].
  cbn [fst History.undoStack History.redoStack].
  rewrite (last_removelast _ _ Ha) at 2. rewrite !length_app. simpl. lia.
Qed.

(** X27. The history never holds more than [maxHistorySize] = 100
    actions: whatever is recorded, undone, redone or cleared, starting
    from the empty history, the undo stack and the redo stack together
    hold at most 100 entries. *)
Theorem history_bounded (ops : list History.Op) :
  (length (History.undoStack (foldl History.apply History.initial ops))
   + length (History.redoStack (foldl History.apply History.initial ops))
   ≤ 100)%nat.
Proof.
  assert (∀ h,
    (length (History.undoStack h) + length (History.redoStack h) ≤ 100)%nat →
    (length (History.undoStack (foldl History.apply h ops))
     + length (History.redoStack (foldl History.apply h ops)) ≤ 100)%nat) as H.
  { induction ops as [|op ops IH]; intros h Hh; [done|].
    simpl. apply IH. destruct op; simpl.
    - done.
    - unfold History.recordAction. destruct isRemote; [done|].
      destruct (Js.truthy _); [|done].
      cbn [History.undoStack History.redoStack].
      destruct (decide _) as [Hlt|Hge].
      + rewrite length_tail, length_app. simpl. lia.
      + unfold History.maxHistorySize in Hge. simpl. lia.
    - by rewrite undo_lengths.
    - by rewrite redo_lengths.
    - simpl. lia. }
  apply H. simpl. lia.
Qed.

(** X28. Undo and redo are inverse to each other on the stacks: when
    there is something to undo, redo after undo hands over the same
    action and gives the history back as it was; and when there is
    something to redo, undo after redo does. *)
Theorem undo_redo_round_trip (h : History.State) :
  (History.canUndo h = true →
   ∃ a, (History.undo h).2 = Some a ∧
        last (History.undoStack h) = Some a ∧
        History.redo (History.undo h).1 = (h, Some a)) ∧
  (History.canRedo h = true →
   ∃ a, (History.redo h).2 = Some a ∧
        last (History.redoStack h) = Some a ∧
        History.undo (History.redo h).1 = (h, Some a)).
Proof.
  split; intros Hc.
  - destruct (canUndo_top h Hc) as [a Ha]. exists a.
    unfold History.undo. rewrite Hc, Ha. cbn [fst snd].
    split; [done|]. split; [done|].
    unfold History.redo, History.canRedo.
    cbn [History.undoStack History.redoStack History.userId].
    rewrite bool_decide_eq_true_2 by (rewrite length_app; simpl; lia).
    rewrite last_snoc, removelast_last, <- (last_removelast _ _ Ha).
    by destruct h.
  - destruct (canRedo_top h Hc) as [a Ha]. exists a.
    unfold History.redo. rewrite Hc, Ha. cbn [fst snd].
    split; [done|]. split; [done|].
    unfold History.undo, History.canUndo.
    cbn [History.undoStack History.redoStack History.userId].
    rewrite bool_decide_eq_true_2 by (rewrite length_app; simpl; lia).
    rewrite last_snoc, removelast_last, <- (last_removelast _ _ Ha).
    by destruct h.
Qed.

Lemma undo_redo_round_trip_witness :
  ∃ a, (History.undo
          (History.mkState
             [History.mkAction "ADD" "a1" 10 "s1";
              History.mkAction "MODIFY" "a1" 20 "s1"] [] (Some "s1"))).2
       = Some a ∧
       History.act_type a = "MODIFY".
Proof.
  destruct (undo_redo_round_trip
              (History.mkState
                 [History.mkAction "ADD" "a1" 10 "s1";
                  History.mkAction "MODIFY" "a1" 20 "s1"] [] (Some "s1")))
    as [H _].
  destruct H as (a & H1 & H2 & _).
  - reflexivity.
  - exists a. split; [exact H1|]. injection H2 as <-. reflexivity.
Defined.

(** X29. A local action recorded once the user id is known can be undone
    at once: undo hands that very action to applyUndo, the redo stack
    then holds it alone (what could be redone before is dropped), and the
    undo stack is the one before the recording, without its oldest entry
    when it already held 100. *)
Theorem record_then_undo (h : History.State) (type objectData uid : string)
    (now : Z) :
  History.userId h = Some uid → uid ≠ "" →
  History.undo (History.recordAction type objectData false now h) =
    ({| History.undoStack :=
          if decide (100 ≤ length (History.undoStack h))%nat
          then tail (History.undoStack h) else History.undoStack h;
        History.redoStack := [History.mkAction type objectData now uid];
        History.userId := Some uid |},
     Some (History.mkAction type objectData now uid)).
Proof.
  intros Huid Hne. unfold History.recordAction.
  rewrite Huid. cbn [Js.truthy]. rewrite decide_False by done.
  set (a := History.mkAction type objectData now uid).
  unfold History.maxHistorySize.
  assert ((if decide (100 < length (History.undoStack h ++ [a]))%nat
           then tail (History.undoStack h ++ [a])
           else (History.undoStack h ++ [a])%list)
          = ((if decide (100 ≤ length (History.undoStack h))%nat
              then tail (History.undoStack h) else History.undoStack h)
             ++ [a])%list) as ->.
  { rewrite length_app. simpl.
    destruct (decide (100 < _)%nat), (decide (100 ≤ _)%nat); try lia;
      [|done].
    destruct (History.undoStack h); [simpl in *; lia|done]. }
  unfold History.undo, History.canUndo.
  cbn [History.undoStack History.redoStack History.userId].
  rewrite bool_decide_eq_true_2 by (rewrite length_app; simpl; lia).
  by rewrite last_snoc, removelast_last.
Qed.

Lemma record_then_undo_witness :
  History.undo
    (History.recordAction "ADD" "a1" false 30
       (History.mkState [History.mkAction "CLEAR" "" 10 "s1"]
          [History.mkAction "ADD" "zz" 5 "s1"] (Some "s1"))) =
    (History.mkState [History.mkAction "CLEAR" "" 10 "s1"]
       [History.mkAction "ADD" "a1" 30 "s1"] (Some "s1"),
     Some (History.mkAction "ADD" "a1" 30 "s1")).
Proof.
  apply (record_then_undo
           (History.mkState [History.mkAction "CLEAR" "" 10 "s1"]
              [History.mkAction "ADD" "zz" 5 "s1"] (Some "s1"))
           "ADD" "a1" "s1" 30).
  - reflexivity.
  - discriminate.
Defined.

(** * The throttle *)

Section ThrottleFacts.
Context {Args : Type}.
Variable wait : Z.

Lemma spaced_app (prev : option Z) (out1 out2 : list (@Throttle.Run Args)) :
  Throttle.spaced wait prev out1 →
  Throttle.spaced wait
    (match last out1 with
     | Some r => Some (Throttle.run_finished r)
     | None => prev
     end) out2 →
  Throttle.spaced wait prev (out1 ++ out2).
Proof.
  revert prev. induction out1 as [|r out1 IH]; intros prev H1 H2; [done|].
  destruct H1 as [H1 H1']. split; [done|]. apply IH; [done|].
  destruct out1 as [|r' out1]; [exact H2|].
  rewrite last_cons_cons in H2.
  destruct (last (r' :: out1)) eqn:Hl; [exact H2|].
  by apply last_None in Hl.
Qed.

Lemma throttle_step_spaced (st : (@Throttle.State Args)) (prev : option Z) (ev : (@Throttle.Event Args)) :
  Throttle.tracks st prev →
  Throttle.clock_nonzero ev →
  Throttle.spaced wait prev (Throttle.step wait st ev).2 ∧
  Throttle.tracks (Throttle.step wait st ev).1
    (match last (Throttle.step wait st ev).2 with
     | Some r => Some (Throttle.run_finished r)
     | None => prev
     end).
Proof.
  intros Htr Hclock. destruct ev as [args now|now1 now2]; simpl in *.
  - unfold Throttle.never_ran. destruct prev as [t|].
    + destruct Htr as [-> Ht]. rewrite bool_decide_eq_false_2 by done.
      simpl. done.
    + rewrite Htr. simpl. done.
  - destruct (Throttle.timeout st) as [[args d]|]; [|done].
    destruct (decide _) as [Hge|]; simpl.
    + destruct prev as [t|].
      * destruct Htr as [Hl Ht]. rewrite Hl in Hge. simpl in Hge. done.
      * done.
    + destruct prev as [t|]; simpl in *; done.
Qed.

Lemma throttle_steps_spaced (evs : list (@Throttle.Event Args)) (st : (@Throttle.State Args))
    (prev : option Z) :
  Throttle.tracks st prev →
  Forall Throttle.clock_nonzero evs →
  Throttle.spaced wait prev (Throttle.steps wait st evs).2.
Proof.
  revert st prev. induction evs as [|ev evs IH]; intros st prev Htr Hall;
    [done|].
  apply Forall_cons in Hall as [Hev Hall].
  destruct (throttle_step_spaced st prev ev Htr Hev) as [H1 H2].
  simpl. destruct (Throttle.step wait st ev) as [st1 out1] eqn:Hstep.
  specialize (IH st1 _ H2 Hall).
  destruct (Throttle.steps wait st1 evs) as [st2 out2]. simpl in *.
  by apply spaced_app.
Qed.
Lemma throttle_calls_pending (calls : list (@Throttle.Event Args))
    (st : @Throttle.State Args) (t : Z) :
  Throttle.lastRan st = Some t → t ≠ 0 →
  Forall Throttle.is_call calls →
  (Throttle.steps wait st calls).2 = [] ∧
  Throttle.lastRan (Throttle.steps wait st calls).1 = Some t ∧
  (calls = [] ∨ ∃ args now,
     last calls = Some (Throttle.Call args now) ∧
     Throttle.timeout (Throttle.steps wait st calls).1 =
       Some (args, wait - (now - t))).
Proof.
  intros Hl Ht. revert st Hl.
  induction calls as [|ev calls IH]; intros st Hl Hall; [by auto|].
  apply Forall_cons in Hall as [Hev Hall].
  destruct ev as [args now|]; [|done].
  cbn [Throttle.steps Throttle.step]. unfold Throttle.never_ran.
  rewrite Hl, bool_decide_eq_false_2 by done.
  set (st1 := Throttle.mkState _ _).
  destruct (IH st1 eq_refl Hall) as (H1 & H2 & H3).
  destruct H3 as [->|(args' & now' & Hlast & Hto)].
  - cbn [Throttle.steps fst snd app]. split; [done|]. split; [done|].
    right. exists args, now. split; [done|]. done.
  - destruct (Throttle.steps wait st1 calls) as [st2 out2].
    cbn [fst snd] in *. rewrite H1. split; [done|]. split; [done|]. right.
    exists args', now'. split; [|done].
    destruct calls; [done|]. by rewrite last_cons_cons.
Qed.
End ThrottleFacts.

(** X30. A throttled function never runs twice within [wait]: in any
    sequence of calls and timer firings on a fresh throttle, every run of
    the function starts at a clock reading at least [wait] after the
    reading taken when the run before it finished; the clock readings
    kept in lastRan being other than 0. *)
Theorem throttle_spaced {Args : Type} (wait : Z)
    (evs : list (@Throttle.Event Args)) :
  Forall Throttle.clock_nonzero evs →
  Throttle.spaced wait None (Throttle.steps wait Throttle.initial evs).2.
Proof.
  intros Hall. by apply throttle_steps_spaced.
Qed.

Lemma throttle_spaced_witness :
  Throttle.spaced 16 None
    (Throttle.steps 16 Throttle.initial
       [Throttle.Call (1, 1) 1000; Throttle.Call (2, 2) 1004;
        Throttle.Call (3, 3) 1009; Throttle.Fire 1016 1017;
        Throttle.Call (4, 4) 1020; Throttle.Fire 1025 1025;
        Throttle.Call (5, 5) 1040; Throttle.Fire 1041 1041]).2.
Proof.
  apply (throttle_spaced 16
           [Throttle.Call (1, 1) 1000; Throttle.Call (2, 2) 1004;
            Throttle.Call (3, 3) 1009; Throttle.Fire 1016 1017;
            Throttle.Call (4, 4) 1020; Throttle.Fire 1025 1025;
            Throttle.Call (5, 5) 1040; Throttle.Fire 1041 1041]).
  repeat constructor; discriminate.
Defined.

(** X31. The latest call wins: on a throttle that has run, the calls made
    before the timer fires each replace the pending one, and when the
    timer fires [wait] or more after the last run, the function runs
    once, with the arguments of the last of those calls. *)
Theorem throttle_latest_call_wins {Args : Type} (wait : Z)
    (st : @Throttle.State Args) (t : Z) (calls : list (@Throttle.Event Args))
    (args : Args) (now now1 now2 : Z) :
  Throttle.lastRan st = Some t → t ≠ 0 →
  Forall Throttle.is_call calls →
  now1 - t >= wait →
  Throttle.steps wait st
    (calls ++ [Throttle.Call args now; Throttle.Fire now1 now2]) =
    ({| Throttle.lastRan := Some now2; Throttle.timeout := None |},
     [Throttle.mkRun args now1 now2]).
Proof.
  intros Hl Ht Hcalls Hge.
  assert (∀ evs1 evs2 (s0 : @Throttle.State Args),
            Throttle.steps wait s0 (evs1 ++ evs2) =
              ((Throttle.steps wait (Throttle.steps wait s0 evs1).1 evs2).1,
               ((Throttle.steps wait s0 evs1).2 ++
                (Throttle.steps wait (Throttle.steps wait s0 evs1).1 evs2).2)%list))
    as Happ.
  { induction evs1 as [|e evs1 IH]; intros evs2 s0.
    - simpl. by destruct (Throttle.steps wait s0 evs2).
    - cbn [Throttle.steps app]. destruct (Throttle.step wait s0 e) as [s1 o1].
      rewrite IH. destruct (Throttle.steps wait s1 evs1) as [s2 o2].
      cbn [fst snd].
      destruct (Throttle.steps wait s2 evs2) as [s3 o3].
      cbn [fst snd]. by rewrite app_assoc. }
  rewrite Happ.
  destruct (throttle_calls_pending wait calls st t Hl Ht Hcalls)
    as (H1 & H2 & _).
  rewrite H1.
  destruct (Throttle.steps wait st calls) as [s1 o1]. cbn [fst snd] in *.
  cbn [Throttle.steps Throttle.step]. unfold Throttle.never_ran.
  rewrite H2, bool_decide_eq_false_2 by done.
  cbn [Throttle.timeout Throttle.lastRan default].
  by rewrite decide_True by done.
Qed.

Lemma throttle_latest_call_wins_witness :
  Throttle.steps 16 (Throttle.mkState (Some 1000) None)
    ([Throttle.Call "a" 1004; Throttle.Call "b" 1009]
     ++ [Throttle.Call "c" 1012; Throttle.Fire 1016 1017]) =
    ({| Throttle.lastRan := Some 1017; Throttle.timeout := None |},
     [Throttle.mkRun "c" 1016 1017]).
Proof.
  apply (throttle_latest_call_wins 16 (Throttle.mkState (Some 1000) None)
           1000 [Throttle.Call "a" 1004; Throttle.Call "b" 1009]
           "c" 1012 1016 1017).
  - reflexivity.
  - discriminate.
  - repeat constructor.
  - vm_compute. discriminate.
Defined.
